(** * The simulated sensing-and-alerting engine of [src/App.jsx]

    A shallow embedding of the engine part of the [App] component: the
    simulation tick (breach expiry, sensor / pressure / rack-power update),
    the alert-detection effect, the derived risk metrics (BARI) and the two
    caller-facing actions [induce] and [clearAll].

    Conventions of the embedding.
    - JavaScript numbers are exact rationals ([Q]); comparisons are the exact
      ones, so rounding and NaN are outside the model.  [Date.now()] is an
      integer number of milliseconds ([Z]) and is passed in as [now].
    - [Math.random()] is an input: every draw the code makes is an argument
      (a value in [0,1) in the source).  [Math.exp] is a variable of the
      section that holds the tick.
    - React state ([useState]) and refs ([useRef]) of the engine are the
      fields of one record [State]; an updater [setX(prev => e)] is the
      function [prev => e] applied to the field.  Presentation state (mode,
      hover, hints, wizard step, ROI sliders, acknowledgements) is left out. *)

From Stdlib Require Import String.
From Stdlib Require Import QArith Qminmax Qabs Qround ZArith List Lia Lqa Bool Morphisms.
Import ListNotations.
Open Scope Q_scope.

(** ** Constants *)

Definition N_SENSORS : nat := 120.
Definition N_RACKS   : nat := 8.
Definition T_BASE    : Q := 19.2.
Definition DP_BASE   : Q := 28.4.
Definition A1_LIMIT  : Q := 27.

(** ** Numbers, arrays *)

(** An array index or a count used as a number. *)
Definition num (n : nat) : Q := inject_Z (Z.of_nat n).

(** [x < y] as the boolean the code branches on. *)
Definition Qltb (x y : Q) : bool := negb (Qle_bool y x).

(** [arr[i]] for an array of numbers.  Every array the engine indexes has a
    fixed length ([N_SENSORS] or 4) and is read inside it; the default stands
    for the [undefined] of an out-of-range read, which does not occur. *)
Definition idx (arr : list Q) (i : nat) : Q := nth i arr 0.

(** [arr.map((x, i) => f i x)]. *)
Fixpoint mapi_from {A B : Type} (k : nat) (f : nat -> A -> B) (l : list A) : list B :=
  match l with
  | [] => []
  | x :: r => f k x :: mapi_from (S k) f r
  end.

Definition mapi {A B : Type} (f : nat -> A -> B) (l : list A) : list B :=
  mapi_from 0 f l.

(** [arr.reduce((acc, x, i) => f acc x i, init)]. *)
Fixpoint reducei_from {A B : Type} (k : nat) (f : B -> A -> nat -> B) (l : list A) (acc : B) : B :=
  match l with
  | [] => acc
  | x :: r => reducei_from (S k) f r (f acc x k)
  end.

Definition reducei {A B : Type} (f : B -> A -> nat -> B) (l : list A) (init : B) : B :=
  reducei_from 0 f l init.

(** [arr.slice(a, b)] for [0 <= a <= b]. *)
Definition slice {A : Type} (a b : nat) (l : list A) : list A :=
  firstn (b - a) (skipn a l).

(** [Math.max(...l)]: [None] is the [-Infinity] of the empty call. *)
Definition maxSpread (l : list Q) : option Q :=
  match l with
  | [] => None
  | x :: r => Some (fold_left Qmax r x)
  end.

(** [l.indexOf(v)]: first position holding [v], [-1] when there is none. *)
Fixpoint indexOf_from (k : Z) (v : Q) (l : list Q) : Z :=
  match l with
  | [] => (-1)%Z
  | x :: r => if Qeq_bool x v then k else indexOf_from (k + 1)%Z v r
  end.

Definition indexOf (v : Q) (l : list Q) : Z := indexOf_from 0%Z v l.

(** ** Data model *)

Inductive Level : Type := WARNING | CRITICAL | BREACH | CLEAR.

(** A breach: [{ id, pos, w, int, dur, t, label }]. *)
Record Breach : Type := mkBreach {
  b_id    : Z;
  b_pos   : Q;
  b_w     : Q;
  b_int   : Q;
  b_dur   : Q;
  b_t     : Z;
  b_label : string
}.

(** [physLoc(i)] builds the text [Rack R<rack>, <feet>'<inches> from N]; the
    three numbers of the text are kept. *)
Record PhysLoc : Type := mkPhysLoc {
  rack   : Z;
  feet   : Z;
  inches : Z
}.

Definition physLoc (i : Q) : PhysLoc :=
  let r    := (Qfloor (i / num N_SENSORS * num N_RACKS) + 1)%Z in
  let inch := Qfloor (i / num N_SENSORS * 480 + 1 / 2) in
  {| rack := r; feet := (inch / 12)%Z; inches := Z.rem inch 12 |}.

Definition zoneLabels : list string :=
  ["Zone A — North"; "Zone B"; "Zone C"; "Zone D — South"]%string.

(** [zoneLabel(i)]: [None] is the [undefined] of an index outside the table. *)
Definition zoneLabel (i : Z) : option string :=
  let k := Qfloor (inject_Z i / (num N_SENSORS / 4)) in
  if (k <? 0)%Z then None else nth_error zoneLabels (Z.to_nat k).

(** The [what] text of an alert, by the template that builds it. *)
Inductive Message : Type :=
| ThermalAnomaly (maxDelta : Q)
| ContainmentBreach
| AllCleared.

(** The [action] text of an alert. *)
Inductive Action : Type :=
| Dispatch (l : PhysLoc)
| InspectReseal (l : PhysLoc).

(** An alert: [{ id, ts, time, lvl, what, where, loc, action }]; [time] is
    the local-time rendering of the clock and is not kept. *)
Record Alert : Type := mkAlert {
  a_id   : Z;
  ts     : Z;
  lvl    : Level;
  what   : Message;
  where_ : option string;
  loc    : option PhysLoc;
  action : option Action
}.

(** Engine state: the [useState] cells [temps], [dpArr], [rackPwr],
    [breaches], [alerts], [trend] and the refs [baselineRef], [baseDpRef],
    [breachIdRef], [alertIdRef].  [breachesRef.current] is reassigned to
    [breaches] on every render, so it is the field [breaches]. *)
Record State : Type := mkState {
  temps       : list Q;
  dpArr       : list Q;
  rackPwr     : list Q;
  breaches    : list Breach;
  alerts      : list Alert;
  trend       : Q;
  baselineRef : list Q;
  baseDpRef   : list Q;
  breachIdRef : Z;
  alertIdRef  : Z
}.

Definition setTemps (v : list Q) (s : State) : State :=
  mkState v (dpArr s) (rackPwr s) (breaches s) (alerts s) (trend s)
          (baselineRef s) (baseDpRef s) (breachIdRef s) (alertIdRef s).
Definition setDpArr (v : list Q) (s : State) : State :=
  mkState (temps s) v (rackPwr s) (breaches s) (alerts s) (trend s)
          (baselineRef s) (baseDpRef s) (breachIdRef s) (alertIdRef s).
Definition setRackPwr (v : list Q) (s : State) : State :=
  mkState (temps s) (dpArr s) v (breaches s) (alerts s) (trend s)
          (baselineRef s) (baseDpRef s) (breachIdRef s) (alertIdRef s).
Definition setBreaches (v : list Breach) (s : State) : State :=
  mkState (temps s) (dpArr s) (rackPwr s) v (alerts s) (trend s)
          (baselineRef s) (baseDpRef s) (breachIdRef s) (alertIdRef s).
Definition setAlerts (v : list Alert) (s : State) : State :=
  mkState (temps s) (dpArr s) (rackPwr s) (breaches s) v (trend s)
          (baselineRef s) (baseDpRef s) (breachIdRef s) (alertIdRef s).
Definition setTrend (v : Q) (s : State) : State :=
  mkState (temps s) (dpArr s) (rackPwr s) (breaches s) (alerts s) v
          (baselineRef s) (baseDpRef s) (breachIdRef s) (alertIdRef s).
Definition setBreachIdRef (v : Z) (s : State) : State :=
  mkState (temps s) (dpArr s) (rackPwr s) (breaches s) (alerts s) (trend s)
          (baselineRef s) (baseDpRef s) v (alertIdRef s).
Definition setAlertIdRef (v : Z) (s : State) : State :=
  mkState (temps s) (dpArr s) (rackPwr s) (breaches s) (alerts s) (trend s)
          (baselineRef s) (baseDpRef s) (breachIdRef s) v.

(** The state at mount: [temps], [dpArr], [rackPwr] and the two baselines
    are drawn at random by [makeBaseline], [makeRackPower], [makeBaseDP] and
    are taken as given. *)
Definition initState (temps0 dp0 rack0 baseline baseDp : list Q) : State :=
  mkState temps0 dp0 rack0 [] [] 0 baseline baseDp 0 0.

(** ** The alert log *)

(** [[a, ...prev.slice(0, 29)]]: every writer of the log goes through it. *)
Definition pushAlert (a : Alert) (prev : list Alert) : list Alert :=
  a :: firstn 29 prev.

(** ** Simulation tick (the [setInterval] callback) *)

(** [b => now - b.t < b.dur]. *)
Definition isLive (now : Z) (b : Breach) : bool :=
  Qltb (inject_Z (now - b_t b)) (b_dur b).

Definition liveBreaches (now : Z) (bs : list Breach) : list Breach :=
  filter (isLive now) bs.

(** The draws of one tick: one per sensor, one per pressure zone, one per
    rack, and the one of the trend. *)
Record Draws : Type := mkDraws {
  uTemp  : nat -> Q;
  uDp    : nat -> Q;
  uRack  : nat -> Q;
  uTrend : Q
}.

Section Tick.

(** [Math.exp]. *)
Variable exp : Q -> Q.

(** One turn of [for (const b of live)] in the sensor update. *)
Definition tempLoopBody (i : nat) (target : Q) (b : Breach) : Q :=
  let dist := Qabs (num i - b_pos b) in
  if Qltb dist (b_w b * 2)
  then target + b_int b * exp (- 0.5 * (dist / (b_w b * 0.5)) ^ 2)
  else target.

(** The callback of [prev.map((t, i) => ...)] for the sensors. *)
Definition tickTemp (base : list Q) (live : list Breach) (u : nat -> Q)
           (i : nat) (t : Q) : Q :=
  let target0 := idx base i + (u i - 0.5) * 0.2 in
  let target  := fold_left (tempLoopBody i) live target0 in
  t * 0.68 + target * 0.32.

(** One turn of [for (const b of live)] in the pressure update. *)
Definition dpLoopBody (i : nat) (target : Q) (b : Breach) : Q :=
  let zone := (num i + 0.5) * (num N_SENSORS / 4) in
  let dist := Qabs (b_pos b - zone) in
  target - Qmax 0 (1 - dist / (num N_SENSORS / 3)) * (b_int b / 14) * 9.

Definition tickDp (base : list Q) (live : list Breach) (u : nat -> Q)
           (i : nat) (dp : Q) : Q :=
  let target0 := idx base i + (u i - 0.5) * 0.7 in
  let target  := fold_left (dpLoopBody i) live target0 in
  dp * 0.58 + target * 0.42.

Definition tickRack (u : nat -> Q) (i : nat) (v : Q) : Q :=
  v * 0.97 + (65 + u i * 28) * 0.03.

Definition tick (now : Z) (d : Draws) (s : State) : State :=
  let live := liveBreaches now (breaches s) in
  let s1 := setBreaches live s in
  let s2 := setTemps (mapi (tickTemp (baselineRef s) live (uTemp d)) (temps s1)) s1 in
  let s3 := setDpArr (mapi (tickDp (baseDpRef s) live (uDp d)) (dpArr s2)) s2 in
  let s4 := setRackPwr (mapi (tickRack (uRack d)) (rackPwr s3)) s3 in
  let maxLiveBreach := fold_left (fun mx b => Qmax mx (b_int b)) live 0 in
  setTrend (if Qltb 2 maxLiveBreach then 0.65 + uTrend d * 0.35 else 0) s4.

End Tick.

(** ** Alert detection (the effect on [temps]) *)

(** [temps.map((t, i) => t - baselineRef.current[i])]. *)
Definition deltas (s : State) : list Q :=
  mapi (fun i t => t - idx (baselineRef s) i) (temps s).

Definition autoAlert (id now : Z) (maxDelta : Q) (peakIdx : Z) : Alert :=
  {| a_id   := id;
     ts     := now;
     lvl    := if Qltb 7 maxDelta then CRITICAL else WARNING;
     what   := ThermalAnomaly maxDelta;
     where_ := zoneLabel peakIdx;
     loc    := Some (physLoc (inject_Z peakIdx));
     action := Some (Dispatch (physLoc (inject_Z peakIdx))) |}.

(** [prev[0] && Date.now() - prev[0].ts < 9000]. *)
Definition recentHead (now : Z) (prev : list Alert) : bool :=
  match prev with
  | p0 :: _ => (now - ts p0 <? 9000)%Z
  | [] => false
  end.

(** The updater passed to [setAlerts] by the effect. *)
Definition detectUpdater (now : Z) (a : Alert) (prev : list Alert) : list Alert :=
  if recentHead now prev then prev else pushAlert a prev.

Definition detect (now : Z) (s : State) : State :=
  match maxSpread (deltas s) with
  | None => s
  | Some maxDelta =>
      let peakIdx := indexOf maxDelta (deltas s) in
      if Qltb 4.5 maxDelta then
        let s1 := setAlertIdRef (alertIdRef s + 1)%Z s in
        setAlerts (detectUpdater now (autoAlert (alertIdRef s1) now maxDelta peakIdx)
                                 (alerts s1)) s1
      else s
  end.

(** ** Derived metrics (the render body) *)

(** [Math.max(0, ...deltas)]. *)
Definition maxDelta (s : State) : Q := fold_left Qmax (deltas s) 0.

Definition thermalScore (s : State) : Q :=
  Qmin 1 (Qmax 0 ((maxDelta s - 1) / 10)).

Definition dpDrop (s : State) : Q :=
  reducei (fun acc dp i => acc + (idx (baseDpRef s) i - dp)) (dpArr s) 0 / 4.

Definition dpScore (s : State) : Q :=
  Qmin 1 (Qmax 0 (dpDrop s / 16)).

Definition rackMean (s : State) : Q :=
  fold_left (fun a b => a + b) (slice 10 110 (temps s)) 0 / 100.

Definition rackScore (s : State) : Q :=
  Qmin 1 (Qmax 0 ((rackMean s - T_BASE - 1) / 6)).

Definition bari (s : State) : Q :=
  Qmin 1 (0.5 * thermalScore s + 0.3 * dpScore s + 0.2 * rackScore s).

Definition bariLabel (s : State) : string :=
  if Qltb (bari s) 0.3 then "ALL CLEAR"
  else if Qltb (bari s) 0.55 then "ELEVATED"
  else if Qltb (bari s) 0.8 then "HIGH RISK"
  else "CRITICAL".

(** The scores a reader of the engine takes from one render. *)
Record Risk : Type := mkRisk {
  r_thermalScore   : Q;
  r_pressureScore  : Q;
  r_rackScore      : Q;
  r_bari           : Q;
  r_classification : string
}.

Definition computeRisk (s : State) : Risk :=
  {| r_thermalScore   := thermalScore s;
     r_pressureScore  := dpScore s;
     r_rackScore      := rackScore s;
     r_bari           := bari s;
     r_classification := bariLabel s |}.

(** ** Actions *)

(** [induce(pos, label)]; [r1], [r2], [r3] are the draws of the width, the
    intensity and the duration. *)
Definition newBreach (id now : Z) (pos : Q) (label : string) (r1 r2 r3 : Q) : Breach :=
  {| b_id := id; b_pos := pos;
     b_w := 4 + r1 * 3; b_int := 9 + r2 * 5;
     b_dur := 55000 + r3 * 25000; b_t := now; b_label := label |}.

Definition breachAlert (id now : Z) (pos : Q) (label : string) : Alert :=
  {| a_id   := id;
     ts     := now;
     lvl    := BREACH;
     what   := ContainmentBreach;
     where_ := Some label;
     loc    := Some (physLoc pos);
     action := Some (InspectReseal (physLoc pos)) |}.

Definition induce (now : Z) (r1 r2 r3 : Q) (pos : Q) (label : string) (s : State) : State :=
  let id := (breachIdRef s + 1)%Z in
  let s1 := setBreachIdRef id s in
  let s2 := setBreaches (breaches s1 ++ [newBreach id now pos label r1 r2 r3]) s1 in
  let s3 := setAlertIdRef (alertIdRef s2 + 1)%Z s2 in
  setAlerts (pushAlert (breachAlert (alertIdRef s3) now pos label) (alerts s3)) s3.

Definition clearAlert (id now : Z) : Alert :=
  {| a_id   := id;
     ts     := now;
     lvl    := CLEAR;
     what   := AllCleared;
     where_ := Some "All Zones"%string;
     loc    := None;
     action := None |}.

Definition clearAll (now : Z) (s : State) : State :=
  let s1 := setBreaches [] s in
  let s2 := setAlertIdRef (alertIdRef s1 + 1)%Z s1 in
  setAlerts (pushAlert (clearAlert (alertIdRef s2) now) (alerts s2)) s2.

(** ** The engine as a transition system *)

(** One engine event: a timer tick, a run of the detection effect, or one of
    the two actions. *)
Inductive step (exp : Q -> Q) : State -> State -> Prop :=
| step_tick    (now : Z) (d : Draws) (s : State) :
    step exp s (tick exp now d s)
| step_detect  (now : Z) (s : State) :
    step exp s (detect now s)
| step_induce  (now : Z) (r1 r2 r3 pos : Q) (label : string) (s : State) :
    step exp s (induce now r1 r2 r3 pos label s)
| step_clearAll (now : Z) (s : State) :
    step exp s (clearAll now s).

Inductive reachable (exp : Q -> Q) (s0 : State) : State -> Prop :=
| reach_init : reachable exp s0 s0
| reach_step (s s' : State) :
    reachable exp s0 s -> step exp s s' -> reachable exp s0 s'.

(** ** The sensor update in the words of the specification *)

(** The term one breach adds to the target of sensor [i]: the Gaussian plume
    inside the cut-off [|i - position| < 2 * width], nothing outside. *)
Definition plume (exp : Q -> Q) (b : Breach) (i : nat) : Q :=
  if Qltb (Qabs (num i - b_pos b)) (2 * b_w b)
  then b_int b * exp (- 0.5 * ((num i - b_pos b) / (0.5 * b_w b)) ^ 2)
  else 0.

Definition Qsum (l : list Q) : Q := fold_right Qplus 0 l.

(** Uniform noise of half-width [0.1] from a draw [u] in [0,1). *)
Definition sensorNoise (u : Q) : Q := (u - 0.5) * 0.2.

Definition specTarget (exp : Q -> Q) (base : list Q) (active : list Breach)
           (u : nat -> Q) (i : nat) : Q :=
  idx base i + sensorNoise (u i) + Qsum (map (fun b => plume exp b i) active).

Definition specReading (exp : Q -> Q) (base : list Q) (active : list Breach)
           (u : nat -> Q) (i : nat) (previous : Q) : Q :=
  0.68 * previous + 0.32 * specTarget exp base active u i.

(** ** Concrete states used in the examples *)

Definition flat (v : Q) (n : nat) : list Q := repeat v n.

(** A quiet engine: every sensor on its baseline, no breach, empty log. *)
Definition quiet : State :=
  initState (flat T_BASE N_SENSORS) (flat DP_BASE 4) (flat 80 N_RACKS)
            (flat T_BASE N_SENSORS) (flat DP_BASE 4).

(** Sensor [k] reads [v], the others their baseline. *)
Definition hotAt (k : nat) (v : Q) : list Q :=
  flat T_BASE k ++ v :: flat T_BASE (N_SENSORS - S k).

(** A truncated series standing for [Math.exp] where an example has to
    compute. *)
Definition expSeries (x : Q) : Q := 1 + x + x * x / 2.

(** ** Vocabulary of the properties *)

(** The head of the log is less than 9000 ms old at [now]. *)
Definition RecentAlert (now : Z) (log : list Alert) : Prop :=
  exists p rest, log = p :: rest /\ (now - ts p < 9000)%Z.

(** An alert raised by the detection effect. *)
Definition isAuto (a : Alert) : bool :=
  match lvl a with
  | WARNING | CRITICAL => true
  | BREACH | CLEAR => false
  end.

(** The state in which the second of two evaluations runs: the first has run
    at [now1], and the sensors have moved on to [temps2]. *)
Definition secondEvaluation (now1 : Z) (temps2 : list Q) (s : State) : State :=
  setTemps temps2 (detect now1 s).

(** [0 <= position < N]. *)
Definition inRange (pos : Q) : Prop := 0 <= pos /\ pos < num N_SENSORS.

(** The log an insertion leaves behind the new entry, in the words of the
    specification: the previous log, less its oldest (last) entry when it
    already holds 30. *)
Definition evictOldest (prev : list Alert) : list Alert :=
  if (length prev <? 30)%nat then prev else removelast prev.

(** [l] is [prev] after one write: one new entry at the head, the oldest
    entry evicted on overflow, at most 30 entries in all. *)
Definition written (prev l : list Alert) : Prop :=
  exists a, l = a :: evictOldest prev /\ (length l <= 30)%nat.

(** ** More concrete states *)

(** A log whose head is the BREACH alert of an [induce] at time 0, under a
    5.8 degree excursion at sensor 32. *)
Definition afterInduce : State :=
  setTemps (hotAt 32 25)
           (induce 0 0.5 0.5 0.5 32 "Zone B — Curtain Seam" quiet).

(** The scenario of C4: three active breaches, then [clearAll]. *)
Definition threeBreaches : State :=
  induce 2 0.5 0.5 0.5 64 "Zone C — Top Panel"
    (induce 1 0.5 0.5 0.5 32 "Zone B — Curtain Seam"
       (induce 0 0.5 0.5 0.5 8 "Zone A — Door Seal" quiet)).

(** A breach of duration 60000 ms created at time 0. *)
Definition minuteBreach : Breach := mkBreach 1 32 5 12 60000 0 "Zone B".

(** A full log: 31 inductions leave the 30 most recent alerts. *)
Fixpoint induceMany (n : nat) (s : State) : State :=
  match n with
  | O => s
  | S k => induce (Z.of_nat k) 0.5 0.5 0.5 32 "Zone B" (induceMany k s)
  end.

(** ** Presentation helpers of the engine's readers *)

(** [acked]: the [Set] of acknowledged alert ids, in insertion order. *)
Definition AckSet : Type := list Z.

(** [acked.has(id)]. *)
Definition has (acked : AckSet) (id : Z) : bool := existsb (Z.eqb id) acked.

(** [ackAlert(id)]: the updater [prev => new Set([...prev, id])]. *)
Definition ackAlert (id : Z) (prev : AckSet) : AckSet :=
  if has prev id then prev else prev ++ [id].

(** The predicate of [alerts.find(...)] behind [critAlert]. *)
Definition isCritUnacked (acked : AckSet) (a : Alert) : bool :=
  (match lvl a with CRITICAL | BREACH => true | _ => false end) && negb (has acked (a_id a)).

Definition critAlert (acked : AckSet) (s : State) : option Alert :=
  find (isCritUnacked acked) (alerts s).

(** The predicate of [alerts.filter(...)] behind [unackedCount]. *)
Definition isUnacked (acked : AckSet) (a : Alert) : bool :=
  negb (has acked (a_id a))
  && (match lvl a with CRITICAL | BREACH | WARNING => true | CLEAR => false end).

Definition unackedCount (acked : AckSet) (s : State) : nat :=
  length (filter (isUnacked acked) (alerts s)).

Definition sysStatus (s : State) : string :=
  if Qltb 0.55 (bari s) then "BREACH DETECTED"
  else if Qltb 0.3 (bari s) then "ELEVATED"
  else "NOMINAL".

(** [Math.round(x)]: the nearest integer, halves upwards. *)
Definition jsRound (x : Q) : Z := Qfloor (x + 1 / 2).

Definition bariPct (s : State) : Z := jsRound (bari s * 100).

Definition ENERGY_RATE : Q := 0.078.
Definition CO2_FACTOR  : Q := 0.000410.

Definition bypassKW (s : State) : Q :=
  fold_left (fun acc b => acc + (b_int b / 14) * 18) (breaches s) 0.

Definition costPerHr (s : State) : Q := bypassKW s * ENERGY_RATE.
Definition co2PerHr (s : State) : Q := bypassKW s * CO2_FACTOR * 1000.

(** [ashraeClass(temp)]: [{ cls, color, bg }]. *)
Record Ashrae : Type := mkAshrae {
  cls   : string;
  color : string;
  bg    : string
}.

Definition ashraeClass (temp : Q) : Ashrae :=
  if Qle_bool temp 27 then mkAshrae "A1" "#22d3a0" "rgba(34,211,160,0.08)"
  else if Qle_bool temp 35 then mkAshrae "A2" "#fbbf24" "rgba(251,191,36,0.08)"
  else if Qle_bool temp 40 then mkAshrae "A3" "#fb923c" "rgba(251,146,60,0.08)"
  else mkAshrae "A4" "#f87171" "rgba(248,113,113,0.08)".

(** One entry of [rackZones]; [id] is [R<i+1>] and keeps its number. *)
Record RackZone : Type := mkRackZone {
  z_id    : nat;
  avg     : Q;
  z_delta : Q;
  power   : Q;
  z_class : Ashrae
}.

(** [x || d] for a number read from an array: [undefined] and [0] are
    falsy. *)
Definition orElse (x : option Q) (d : Q) : Q :=
  match x with
  | Some v => if Qeq_bool v 0 then d else v
  | None => d
  end.

(** The index [Math.floor(i * N_SENSORS / N_RACKS)]. *)
Definition rackStart (i : nat) : nat :=
  Z.to_nat (Qfloor (num i * num N_SENSORS / num N_RACKS)).

(** The callback of [Array.from({ length: N_RACKS }, (_, i) => ...)]; the
    slice of a rack is never empty on an array of [N_SENSORS] readings. *)
Definition rackZone (s : State) (i : nat) : RackZone :=
  let sl := slice (rackStart i) (rackStart (i + 1)) (temps s) in
  let a  := fold_left (fun a b => a + b) sl 0 / num (length sl) in
  {| z_id := i + 1; avg := a; z_delta := a - T_BASE;
     power := orElse (nth_error (rackPwr s) i) 80;
     z_class := ashraeClass a |}.

Definition rackZones (s : State) : list RackZone :=
  map (rackZone s) (seq 0 N_RACKS).

(** [Math.max(...rackZones.map(z => z.avg))]; there are [N_RACKS] entries,
    so the call is never the empty one. *)
Definition maxRackTemp (s : State) : Q :=
  match maxSpread (map avg (rackZones s)) with
  | Some m => m
  | None => 0
  end.

(** [timeToLimit]: [None] is [null]. *)
Definition timeToLimit (s : State) : option Q :=
  if Qltb 0 (trend s) then Some (Qmax 0 ((A1_LIMIT - maxRackTemp s) / trend s))
  else None.

(** [t % 1]: what is left of [t] after its integer part, with the sign of
    [t]. *)
Definition fracPart (t : Q) : Q :=
  if Qle_bool 0 t then t - inject_Z (Qfloor t) else t - inject_Z (Qceiling t).

(** [fmtCountdown(t)] prints [<mins>:<secs>], the seconds padded to two
    digits; the two numbers are kept. *)
Definition fmtCountdown (t : Q) : Z * Z :=
  (Qfloor t, Qfloor (fracPart t * 60)).

(** *** The thermal colour scale *)

Record RGB : Type := mkRGB { red : Z; green : Z; blue : Z }.

Definition STOPS : list (Q * RGB) :=
  [ (0,    mkRGB 20 90 220);
    (0.20, mkRGB 0 180 230);
    (0.45, mkRGB 20 210 110);
    (0.65, mkRGB 230 210 20);
    (0.82, mkRGB 240 120 20);
    (1.00, mkRGB 220 25 25) ].

(** [Math.round(a + f * (b - a))] on one channel. *)
Definition mixChannel (f : Q) (a b : Z) : Z :=
  jsRound (inject_Z a + f * (inject_Z b - inject_Z a)).

(** The [for] loop of [tempToColor] over the pairs of neighbouring stops:
    [None] when it runs off the table without returning. *)
Fixpoint colorLoop (v : Q) (stops : list (Q * RGB)) : option RGB :=
  match stops with
  | (t0, c0) :: rest =>
      match rest with
      | (t1, c1) :: _ =>
          if Qle_bool t0 v && Qle_bool v t1 then
            let f := (v - t0) / (t1 - t0) in
            Some (mkRGB (mixChannel f (red c0) (red c1))
                        (mixChannel f (green c0) (green c1))
                        (mixChannel f (blue c0) (blue c1)))
          else colorLoop v rest
      | [] => None
      end
  | [] => None
  end.

(** [tempToColor(t, lo, hi)]; the callers use the defaults 14 and 40. *)
Definition tempToColor (t lo hi : Q) : RGB :=
  let v := Qmax 0 (Qmin 1 ((t - lo) / (hi - lo))) in
  match colorLoop v STOPS with
  | Some c => c
  | None => mkRGB 220 25 25
  end.

(** *** The racks of the 3D view ([IsoDataCenter]) *)

(** [Math.floor((b.pos / N_SENSORS) * N_RACKS) === i]. *)
Definition breachOnRack (i : nat) (b : Breach) : bool :=
  (Qfloor (b_pos b / num N_SENSORS * num N_RACKS) =? Z.of_nat i)%Z.

Definition hasBreach (bs : list Breach) (i : nat) : bool :=
  existsb (breachOnRack i) bs.

Definition rawTemp (ts : list Q) (i : nat) : Q :=
  orElse (nth_error ts (rackStart i)) T_BASE.

Definition isHot (ts : list Q) (i : nat) : bool := Qltb A1_LIMIT (rawTemp ts i).

(** The edge colour [ec] of rack [i]. *)
Definition rackEdge (bs : list Breach) (ts : list Q) (i : nat) : string :=
  if hasBreach bs i then "#f87171" else if isHot ts i then "#fbbf24" else "#1e3a52".

(** ** Vocabulary of the further properties *)

(** Every sensor is within [rho] of its baseline. *)
Definition inBand (rho : Q) (s : State) : Prop :=
  forall i, (i < length (temps s))%nat ->
            Qabs (nth i (temps s) 0 - idx (baselineRef s) i) <= rho.

(** The draws of a tick are results of [Math.random()]. *)
Definition validDraws (d : Draws) : Prop :=
  (forall i, 0 <= uTemp d i /\ uTemp d i < 1)
  /\ (forall i, 0 <= uDp d i /\ uDp d i < 1)
  /\ (forall i, 0 <= uRack d i /\ uRack d i < 1)
  /\ 0 <= uTrend d /\ uTrend d < 1.

(** A run of the engine with no user action: timer ticks and runs of the
    detection effect only. *)
Inductive unattended (exp : Q -> Q) (s0 : State) : State -> Prop :=
| un_init : unattended exp s0 s0
| un_tick (now : Z) (d : Draws) (s : State) :
    unattended exp s0 s -> validDraws d -> unattended exp s0 (tick exp now d s)
| un_detect (now : Z) (s : State) :
    unattended exp s0 s -> unattended exp s0 (detect now s).


(** Ids rise strictly along the list of breaches. *)
Fixpoint idsAscending (bs : list Breach) : Prop :=
  match bs with
  | [] => True
  | b :: rest => Forall (fun c => (b_id b < b_id c)%Z) rest /\ idsAscending rest
  end.

(** The centre of pressure zone [i], in sensor positions. *)
Definition zoneCentre (i : nat) : Q := (num i + 0.5) * (num N_SENSORS / 4).

(** The slice of sensors of rack [i]. *)
Definition rackSlice (s : State) (i : nat) : list Q :=
  slice (rackStart i) (rackStart (i + 1)) (temps s).

(** Every channel is a colour value. *)
Definition channelsValid (c : RGB) : Prop :=
  (0 <= red c <= 255)%Z /\ (0 <= green c <= 255)%Z /\ (0 <= blue c <= 255)%Z.

(** Draws that are all one half. *)
Definition halfDraws : Draws :=
  mkDraws (fun _ => 0.5) (fun _ => 0.5) (fun _ => 0.5) 0.5.

(** * Properties *)

(** ** Basic facts *)

Lemma Qltb_lt (x y : Q) : Qltb x y = true <-> x < y.
Proof.
  unfold Qltb. rewrite negb_true_iff.
  split; intro H.
  - apply Qnot_le_lt. intro L. apply Qle_bool_iff in L. congruence.
  - destruct (Qle_bool y x) eqn:E; [| reflexivity].
    apply Qle_bool_iff in E. apply Qle_not_lt in E. contradiction.
Qed.

Lemma Qltb_ge (x y : Q) : Qltb x y = false <-> y <= x.
Proof.
  unfold Qltb. rewrite negb_false_iff. apply Qle_bool_iff.
Qed.

Lemma length_mapi_from {A B : Type} (f : nat -> A -> B) (l : list A) :
  forall k, length (mapi_from k f l) = length l.
Proof.
  induction l as [| x r IH]; intro k; simpl; [reflexivity | now rewrite IH].
Qed.

Lemma length_mapi {A B : Type} (f : nat -> A -> B) (l : list A) :
  length (mapi f l) = length l.
Proof. apply length_mapi_from. Qed.

Lemma nth_mapi_from {A B : Type} (f : nat -> A -> B) (dA : A) (dB : B) (l : list A) :
  forall k i, (i < length l)%nat ->
    nth i (mapi_from k f l) dB = f (k + i)%nat (nth i l dA).
Proof.
  induction l as [| x r IH]; intros k i Hi; simpl in Hi; [lia |].
  destruct i as [| i]; simpl.
  - now rewrite Nat.add_0_r.
  - rewrite IH by lia. f_equal. lia.
Qed.

Lemma nth_mapi {A B : Type} (f : nat -> A -> B) (dA : A) (dB : B) (l : list A) (i : nat) :
  (i < length l)%nat -> nth i (mapi f l) dB = f i (nth i l dA).
Proof. intro Hi. unfold mapi. now rewrite (nth_mapi_from f dA dB l 0 i Hi). Qed.

(** ** The alert log *)

Lemma length_pushAlert (a : Alert) (prev : list Alert) :
  (length (pushAlert a prev) <= 30)%nat.
Proof.
  unfold pushAlert. cbn [length]. rewrite length_firstn. lia.
Qed.

Lemma pushAlert_room (a : Alert) (prev : list Alert) :
  (length prev < 30)%nat -> pushAlert a prev = a :: prev.
Proof.
  intro H. unfold pushAlert. rewrite firstn_all2 by lia. reflexivity.
Qed.

Lemma firstn_removelast {A : Type} (l : list A) (n : nat) :
  length l = S n -> firstn n l = removelast l.
Proof.
  revert n. induction l as [| x r IH]; intros n H; simpl in H; [discriminate |].
  destruct r as [| y r'].
  - simpl in H. injection H as <-. reflexivity.
  - destruct n as [| n]; [simpl in H; discriminate |].
    change (x :: firstn n (y :: r') = x :: removelast (y :: r')).
    f_equal. apply IH. simpl in *. lia.
Qed.

Lemma pushAlert_full (a : Alert) (prev : list Alert) :
  length prev = 30%nat -> pushAlert a prev = a :: removelast prev.
Proof.
  intro H. unfold pushAlert. now rewrite (firstn_removelast prev 29 H).
Qed.

(** What the three writers do to the log. *)

Lemma alerts_induce (now : Z) (r1 r2 r3 pos : Q) (label : string) (s : State) :
  alerts (induce now r1 r2 r3 pos label s)
  = pushAlert (breachAlert (alertIdRef s + 1) now pos label) (alerts s).
Proof. reflexivity. Qed.

Lemma breaches_induce (now : Z) (r1 r2 r3 pos : Q) (label : string) (s : State) :
  breaches (induce now r1 r2 r3 pos label s)
  = breaches s ++ [newBreach (breachIdRef s + 1) now pos label r1 r2 r3].
Proof. reflexivity. Qed.

Lemma alerts_clearAll (now : Z) (s : State) :
  alerts (clearAll now s) = pushAlert (clearAlert (alertIdRef s + 1) now) (alerts s).
Proof. reflexivity. Qed.

Lemma alerts_tick (exp : Q -> Q) (now : Z) (d : Draws) (s : State) :
  alerts (tick exp now d s) = alerts s.
Proof. reflexivity. Qed.

Lemma breaches_tick (exp : Q -> Q) (now : Z) (d : Draws) (s : State) :
  breaches (tick exp now d s) = liveBreaches now (breaches s).
Proof. reflexivity. Qed.

(** The effect, case by case. *)

Lemma detect_quiet (now : Z) (s : State) (m : Q) :
  maxSpread (deltas s) = Some m -> m <= 4.5 -> detect now s = s.
Proof.
  intros Hm Hle. unfold detect. rewrite Hm.
  apply Qltb_ge in Hle. now rewrite Hle.
Qed.

Lemma alerts_detect_excursion (now : Z) (s : State) (m : Q) :
  maxSpread (deltas s) = Some m -> 4.5 < m ->
  alerts (detect now s)
  = detectUpdater now (autoAlert (alertIdRef s + 1) now m (indexOf m (deltas s)))
                  (alerts s).
Proof.
  intros Hm Hlt. unfold detect. rewrite Hm.
  apply Qltb_lt in Hlt. rewrite Hlt. reflexivity.
Qed.

Lemma alerts_detect_cases (now : Z) (s : State) :
  alerts (detect now s) = alerts s
  \/ exists a, alerts (detect now s) = pushAlert a (alerts s)
               /\ ts a = now /\ (lvl a = WARNING \/ lvl a = CRITICAL).
Proof.
  unfold detect.
  destruct (maxSpread (deltas s)) as [m |]; [| now left].
  destruct (Qltb 4.5 m); [| now left].
  cbn [alerts setAlerts setAlertIdRef]. unfold detectUpdater.
  destruct (recentHead now (alerts s)); [now left | right].
  eexists. split; [reflexivity |]. split; [reflexivity |].
  cbn [lvl autoAlert]. destruct (Qltb 7 m); [now right | now left].
Qed.

Lemma setTemps_alerts (v : list Q) (s : State) : alerts (setTemps v s) = alerts s.
Proof. reflexivity. Qed.

(** Every reachable log is bounded. *)

Lemma step_log_bounded (exp : Q -> Q) (s s' : State) :
  step exp s s' -> (length (alerts s) <= 30)%nat -> (length (alerts s') <= 30)%nat.
Proof.
  intros St Hs. destruct St.
  - now rewrite alerts_tick.
  - destruct (alerts_detect_cases now s) as [E | [a [E _]]]; rewrite E;
      [assumption | apply length_pushAlert].
  - rewrite alerts_induce. apply length_pushAlert.
  - rewrite alerts_clearAll. apply length_pushAlert.
Qed.

Lemma reachable_log_bounded (exp : Q -> Q) (s0 s : State) :
  (length (alerts s0) <= 30)%nat -> reachable exp s0 s ->
  (length (alerts s) <= 30)%nat.
Proof.
  intros H0 R. induction R as [| s s' _ IH St]; [assumption |].
  eapply step_log_bounded; eassumption.
Qed.

(** ** Auto-alert debounce *)

Lemma recentHead_true (now : Z) (log : list Alert) :
  recentHead now log = true <-> RecentAlert now log.
Proof.
  unfold RecentAlert. destruct log as [| p rest]; simpl.
  - split; [discriminate | intros (p & r & E & _); discriminate].
  - rewrite Z.ltb_lt. split.
    + intro H. now exists p, rest.
    + intros (p' & r' & E & H). now injection E as -> ->.
Qed.

Lemma recentHead_false (now : Z) (log : list Alert) :
  recentHead now log = false <-> ~ RecentAlert now log.
Proof.
  rewrite <- recentHead_true. destruct (recentHead now log); split; intro H;
    try reflexivity; try discriminate; try (intro; discriminate).
  exfalso. now apply H.
Qed.

Lemma RecentAlert_earlier (now now' : Z) (log : list Alert) :
  (now <= now')%Z -> RecentAlert now' log -> RecentAlert now log.
Proof.
  intros Hle (p & rest & E & H). exists p, rest. split; [assumption | lia].
Qed.

Lemma detect_suppressed (now : Z) (s : State) :
  RecentAlert now (alerts s) -> alerts (detect now s) = alerts s.
Proof.
  intro R. apply recentHead_true in R. unfold detect.
  destruct (maxSpread (deltas s)) as [m |]; [| reflexivity].
  destruct (Qltb 4.5 m); [| reflexivity].
  cbn [alerts setAlerts setAlertIdRef]. unfold detectUpdater. now rewrite R.
Qed.

Lemma detect_emits (now : Z) (s : State) (m : Q) :
  maxSpread (deltas s) = Some m -> 4.5 < m -> ~ RecentAlert now (alerts s) ->
  exists a, alerts (detect now s) = a :: firstn 29 (alerts s)
            /\ ts a = now
            /\ (7 < m -> lvl a = CRITICAL)
            /\ (m <= 7 -> lvl a = WARNING).
Proof.
  intros Hm Hlt R. apply recentHead_false in R.
  rewrite (alerts_detect_excursion now s m Hm Hlt).
  unfold detectUpdater. rewrite R. unfold pushAlert.
  eexists. split; [reflexivity |]. split; [reflexivity |].
  cbn [lvl autoAlert]. split; intro H.
  - apply Qltb_lt in H. now rewrite H.
  - apply Qltb_ge in H. now rewrite H.
Qed.

(** C1, counterexample: with a BREACH alert written at time 0 at the head of
    the log, the evaluations at 1000 ms and 2000 ms both see a maxDelta above
    4.5 and lie within 9 s of each other, yet the log is unchanged and holds
    no auto-alert: the two excursions produce none, not one. *)
Lemma debounce_pair_counterexample :
  (exists m1, maxSpread (deltas afterInduce) = Some m1 /\ 4.5 < m1)
  /\ (exists m2, maxSpread (deltas (secondEvaluation 1000 (hotAt 32 25) afterInduce)) = Some m2
                 /\ 4.5 < m2)
  /\ (1000 <= 2000 < 1000 + 9000)%Z
  /\ alerts (detect 2000 (secondEvaluation 1000 (hotAt 32 25) afterInduce))
     = alerts afterInduce
  /\ filter isAuto (alerts (detect 2000 (secondEvaluation 1000 (hotAt 32 25) afterInduce)))
     = []
  /\ ~ (exists a, alerts (detect 2000 (secondEvaluation 1000 (hotAt 32 25) afterInduce))
                  = a :: firstn 29 (alerts afterInduce)).
Proof.
  split; [eexists; split; [vm_compute; reflexivity | vm_compute; reflexivity] |].
  split; [eexists; split; [vm_compute; reflexivity | vm_compute; reflexivity] |].
  split; [lia |].
  split; [vm_compute; reflexivity |].
  split; [vm_compute; reflexivity |].
  intros [a E]. apply (f_equal (@length Alert)) in E. vm_compute in E. discriminate.
Qed.

(** C1 (amended): on an evaluation with maxDelta above 4.5, a head of the log
    less than 9000 ms old leaves the log unchanged; otherwise one alert is
    prepended, CRITICAL when maxDelta is above 7 and WARNING otherwise.  Of
    two such evaluations less than 9 s apart, exactly one emits, unless an
    alert already at the head of the log is still less than 9000 ms old at
    the second one, in which case neither does. *)
Theorem auto_alert_debounce (s : State) (now : Z) (m : Q) :
  maxSpread (deltas s) = Some m -> 4.5 < m ->
  (RecentAlert now (alerts s) -> alerts (detect now s) = alerts s)
  /\ (~ RecentAlert now (alerts s) ->
      exists a, alerts (detect now s) = a :: firstn 29 (alerts s)
                /\ ts a = now
                /\ (7 < m -> lvl a = CRITICAL)
                /\ (m <= 7 -> lvl a = WARNING))
  /\ (forall (now2 : Z) (temps2 : list Q) (m2 : Q),
        (now <= now2 < now + 9000)%Z ->
        maxSpread (deltas (secondEvaluation now temps2 s)) = Some m2 -> 4.5 < m2 ->
        (RecentAlert now2 (alerts s) ->
         alerts (detect now2 (secondEvaluation now temps2 s)) = alerts s)
        /\ (~ RecentAlert now2 (alerts s) ->
            exists a, alerts (detect now2 (secondEvaluation now temps2 s))
                      = a :: firstn 29 (alerts s)
                      /\ isAuto a = true
                      /\ (ts a = now \/ ts a = now2))).
Proof.
  intros Hm Hlt.
  split; [apply detect_suppressed |].
  split; [apply (detect_emits now s m Hm Hlt) |].
  intros now2 temps2 m2 Hw Hm2 Hlt2. split.
  - intro R2.
    assert (R1 : RecentAlert now (alerts s))
      by (apply (RecentAlert_earlier now now2); [lia | assumption]).
    rewrite detect_suppressed; unfold secondEvaluation; rewrite setTemps_alerts;
      rewrite (detect_suppressed now s R1); [reflexivity | assumption].
  - intro NR2.
    destruct (recentHead now (alerts s)) eqn:E1.
    + (* the first is suppressed, the second emits *)
      apply recentHead_true in E1.
      destruct (detect_emits now2 (secondEvaluation now temps2 s) m2 Hm2 Hlt2)
        as (a & Ea & Ets & Hc & Hwn).
      { unfold secondEvaluation. rewrite setTemps_alerts.
        now rewrite (detect_suppressed now s E1). }
      exists a. unfold secondEvaluation in Ea. rewrite setTemps_alerts in Ea.
      rewrite (detect_suppressed now s E1) in Ea.
      split; [assumption |]. split; [| now right].
      unfold isAuto. destruct (Qlt_le_dec 7 m2) as [H | H];
        [rewrite (Hc H) | rewrite (Hwn H)]; reflexivity.
    + (* the first emits, the second is suppressed by it *)
      apply recentHead_false in E1.
      destruct (detect_emits now s m Hm Hlt E1) as (a & Ea & Ets & Hc & Hwn).
      exists a. split.
      * apply eq_trans with (alerts (detect now s)); [| assumption].
        rewrite detect_suppressed; unfold secondEvaluation; rewrite setTemps_alerts;
          [reflexivity |].
        exists a, (firstn 29 (alerts s)). split; [assumption | lia].
      * split; [| now left].
        unfold isAuto. destruct (Qlt_le_dec 7 m) as [H | H];
          [rewrite (Hc H) | rewrite (Hwn H)]; reflexivity.
Qed.

(** Witness for C1: a 5.8 degree excursion over an empty log at time 1000. *)
Lemma auto_alert_debounce_witness :
  maxSpread (deltas (setTemps (hotAt 32 25) quiet)) = Some (58 # 10)
  /\ 4.5 < 58 # 10
  /\ (~ RecentAlert 1000 (alerts (setTemps (hotAt 32 25) quiet)) ->
      exists a, alerts (detect 1000 (setTemps (hotAt 32 25) quiet))
                = a :: firstn 29 (alerts (setTemps (hotAt 32 25) quiet))
                /\ ts a = 1000%Z
                /\ (7 < 58 # 10 -> lvl a = CRITICAL)
                /\ (58 # 10 <= 7 -> lvl a = WARNING)).
Proof.
  split; [vm_compute; reflexivity |].
  split; [vm_compute; reflexivity |].
  exact (proj1 (proj2 (auto_alert_debounce (setTemps (hotAt 32 25) quiet) 1000 (58 # 10)
                                           eq_refl eq_refl))).
Defined.

(** ** Inducing and clearing breaches *)

(** C2, counterexample: [induce] at position 120, one past the last sensor,
    on the quiet engine is not rejected: the breach list and the alert log
    both change, and the new breach carries position 120. *)
Lemma induce_out_of_range_counterexample :
  ~ inRange 120
  /\ breaches (induce 0 0.5 0.5 0.5 120 "Zone X" quiet) <> breaches quiet
  /\ alerts (induce 0 0.5 0.5 0.5 120 "Zone X" quiet) <> alerts quiet
  /\ map b_pos (breaches (induce 0 0.5 0.5 0.5 120 "Zone X" quiet)) = [120].
Proof.
  split.
  - intros [_ H]. vm_compute in H. discriminate.
  - split; [| split]; [discriminate | discriminate | reflexivity].
Qed.

(** C2 (amended): [induce] does not validate its position.  A call with a
    position outside [0 <= position < 120] is accepted like any other: it
    appends one breach that carries the position as given (not clamped) and
    prepends one BREACH alert. *)
Theorem induce_no_validation
        (now : Z) (r1 r2 r3 pos : Q) (label : string) (s : State) :
  ~ inRange pos ->
  (exists b, breaches (induce now r1 r2 r3 pos label s) = breaches s ++ [b]
             /\ b_pos b = pos)
  /\ (exists a, alerts (induce now r1 r2 r3 pos label s) = a :: firstn 29 (alerts s)
                /\ lvl a = BREACH).
Proof.
  intros _. split.
  - exists (newBreach (breachIdRef s + 1) now pos label r1 r2 r3).
    split; [apply breaches_induce | reflexivity].
  - exists (breachAlert (alertIdRef s + 1) now pos label).
    split; [apply alerts_induce | reflexivity].
Qed.

Lemma induce_no_validation_witness :
  ~ inRange (-5)
  /\ (exists b, breaches (induce 0 0.5 0.5 0.5 (-5) "Zone X" quiet) = breaches quiet ++ [b]
                /\ b_pos b = -5)
  /\ (exists a, alerts (induce 0 0.5 0.5 0.5 (-5) "Zone X" quiet)
                = a :: firstn 29 (alerts quiet)
                /\ lvl a = BREACH).
Proof.
  assert (H : ~ inRange (-5)) by (intros [H _]; vm_compute in H; apply H; reflexivity).
  split; [exact H |].
  exact (induce_no_validation 0 0.5 0.5 0.5 (-5) "Zone X" quiet H).
Defined.

(** C3: every call of [induce] succeeds.  It adds exactly one breach, at the
    end of the active list, with the position and label of the call, and
    prepends exactly one BREACH alert stamped [now]; nothing in the call
    looks at the age of the log's head, so the 9 s debounce does not apply. *)
Theorem induce_always_emits
        (now : Z) (r1 r2 r3 pos : Q) (label : string) (s : State) :
  (exists b, breaches (induce now r1 r2 r3 pos label s) = breaches s ++ [b]
             /\ b_pos b = pos /\ b_label b = label /\ b_t b = now)
  /\ length (breaches (induce now r1 r2 r3 pos label s)) = S (length (breaches s))
  /\ (exists a, alerts (induce now r1 r2 r3 pos label s) = a :: firstn 29 (alerts s)
                /\ lvl a = BREACH /\ ts a = now).
Proof.
  split; [| split].
  - exists (newBreach (breachIdRef s + 1) now pos label r1 r2 r3).
    repeat split.
  - rewrite breaches_induce, length_app. simpl. lia.
  - exists (breachAlert (alertIdRef s + 1) now pos label). repeat split.
Qed.

(** The debounce case of C3 on a concrete log: a BREACH alert 1 ms after
    another one. *)
Example induce_twice_in_a_row :
  map lvl (alerts (induce 1 0.5 0.5 0.5 64 "Zone C — Top Panel"
                          (induce 0 0.5 0.5 0.5 32 "Zone B — Curtain Seam" quiet)))
  = [BREACH; BREACH].
Proof. reflexivity. Qed.

(** C4: [clearAll] leaves no active breach, whatever the state, and prepends
    exactly one CLEAR alert to the log. *)
Theorem clearAll_empties (now : Z) (s : State) :
  breaches (clearAll now s) = []
  /\ length (breaches (clearAll now s)) = 0%nat
  /\ (exists a, alerts (clearAll now s) = a :: firstn 29 (alerts s)
                /\ lvl a = CLEAR /\ ts a = now).
Proof.
  split; [reflexivity | split; [reflexivity |]].
  exists (clearAlert (alertIdRef s + 1) now). repeat split.
Qed.

Example clearAll_three_breaches :
  length (breaches threeBreaches) = 3%nat
  /\ length (breaches (clearAll 3 threeBreaches)) = 0%nat
  /\ map lvl (alerts (clearAll 3 threeBreaches)) = [CLEAR; BREACH; BREACH; BREACH].
Proof. repeat split. Qed.

(** ** Breach expiry *)

Lemma isLive_true (now : Z) (b : Breach) :
  isLive now b = true <-> inject_Z (now - b_t b) < b_dur b.
Proof. apply Qltb_lt. Qed.

Lemma inject_Z_sub (a b : Z) : inject_Z (a - b) == inject_Z a - inject_Z b.
Proof.
  unfold Z.sub. rewrite inject_Z_plus, inject_Z_opp. reflexivity.
Qed.

(** C5: a breach of the list is in the active set a tick computes exactly
    when [now - createdAt < duration]; it is absent from it once
    [now >= createdAt + duration], present while [now < createdAt + duration],
    and nothing in the active set is past [createdAt + duration]. *)
Theorem breach_expiry (exp : Q -> Q) (now : Z) (d : Draws) (s : State) (b : Breach) :
  In b (breaches s) ->
  (In b (breaches (tick exp now d s)) <-> inject_Z (now - b_t b) < b_dur b)
  /\ (inject_Z (b_t b) + b_dur b <= inject_Z now -> ~ In b (breaches (tick exp now d s)))
  /\ (inject_Z now < inject_Z (b_t b) + b_dur b -> In b (breaches (tick exp now d s)))
  /\ (forall b', In b' (breaches (tick exp now d s)) ->
                 In b' (breaches s) /\ inject_Z now < inject_Z (b_t b') + b_dur b').
Proof.
  intro Hin. rewrite breaches_tick. unfold liveBreaches.
  assert (E : forall c, inject_Z (now - b_t c) < b_dur c
                        <-> inject_Z now < inject_Z (b_t c) + b_dur c).
  { intro c. rewrite inject_Z_sub. split; intro H; lra. }
  split; [| split; [| split]].
  - rewrite filter_In, isLive_true. tauto.
  - intros H F. apply filter_In in F. destruct F as [_ F].
    apply isLive_true, E in F. lra.
  - intro H. apply filter_In. split; [assumption |]. now apply isLive_true, E.
  - intros b' F. apply filter_In in F. destruct F as [I F].
    split; [assumption |]. now apply E, isLive_true.
Qed.

Lemma breach_expiry_witness :
  In minuteBreach (breaches (setBreaches [minuteBreach] quiet))
  /\ (inject_Z 0 + 60000 <= inject_Z 60000 ->
      ~ In minuteBreach
           (breaches (tick expSeries 60000 (mkDraws (fun _ => 0.5) (fun _ => 0.5) (fun _ => 0.5) 0.5)
                           (setBreaches [minuteBreach] quiet)))).
Proof.
  assert (H : In minuteBreach (breaches (setBreaches [minuteBreach] quiet)))
    by (left; reflexivity).
  split; [exact H |].
  exact (proj1 (proj2 (breach_expiry expSeries 60000
                         (mkDraws (fun _ => 0.5) (fun _ => 0.5) (fun _ => 0.5) 0.5)
                         (setBreaches [minuteBreach] quiet) minuteBreach H))).
Defined.

(** The two sides of the deadline, computed. *)
Example breach_expiry_at_deadline :
  liveBreaches 59999 [minuteBreach] = [minuteBreach]
  /\ liveBreaches 60000 [minuteBreach] = [].
Proof. split; reflexivity. Qed.

(** ** The bounded alert log *)

Lemma pushAlert_written (a : Alert) (prev : list Alert) :
  (length prev <= 30)%nat -> written prev (pushAlert a prev).
Proof.
  intro H. exists a. split; [| apply length_pushAlert].
  unfold evictOldest. destruct (length prev <? 30)%nat eqn:E.
  - apply Nat.ltb_lt in E. now apply pushAlert_room.
  - apply Nat.ltb_ge in E. apply pushAlert_full. lia.
Qed.

(** C6: in every state the engine reaches from a state with an empty log,
    the log holds at most 30 entries, and each writer of the log ([induce],
    [clearAll], the detection effect when it emits) puts one new entry at the
    head, evicts the oldest entry when 30 are already held, and leaves at most
    30. *)
Theorem alert_log_bounded (exp : Q -> Q) (s0 s : State) (now : Z) :
  alerts s0 = [] -> reachable exp s0 s ->
  (length (alerts s) <= 30)%nat
  /\ (forall r1 r2 r3 pos label,
        written (alerts s) (alerts (induce now r1 r2 r3 pos label s)))
  /\ written (alerts s) (alerts (clearAll now s))
  /\ (alerts (detect now s) = alerts s
      \/ written (alerts s) (alerts (detect now s))).
Proof.
  intros H0 R.
  assert (B : (length (alerts s) <= 30)%nat).
  { apply (reachable_log_bounded exp s0 s); [rewrite H0; simpl; lia | assumption]. }
  split; [assumption |].
  split; [| split].
  - intros. rewrite alerts_induce. now apply pushAlert_written.
  - rewrite alerts_clearAll. now apply pushAlert_written.
  - destruct (alerts_detect_cases now s) as [E | (a & E & _)]; [now left | right].
    rewrite E. now apply pushAlert_written.
Qed.

Lemma alert_log_bounded_witness :
  alerts quiet = []
  /\ reachable expSeries quiet (induce 0 0.5 0.5 0.5 32 "Zone B" quiet)
  /\ written (alerts (induce 0 0.5 0.5 0.5 32 "Zone B" quiet))
             (alerts (clearAll 5 (induce 0 0.5 0.5 0.5 32 "Zone B" quiet))).
Proof.
  assert (R : reachable expSeries quiet (induce 0 0.5 0.5 0.5 32 "Zone B" quiet))
    by (eapply reach_step; [apply reach_init | apply step_induce]).
  split; [reflexivity |]. split; [exact R |].
  exact (proj1 (proj2 (proj2 (alert_log_bounded expSeries quiet
                                (induce 0 0.5 0.5 0.5 32 "Zone B" quiet) 5 eq_refl R)))).
Defined.

Example log_full_evicts_oldest :
  map ts (alerts (induceMany 30 quiet)) = map Z.of_nat (rev (seq 0 30))
  /\ map ts (alerts (induceMany 31 quiet)) = map Z.of_nat (rev (seq 1 30)).
Proof. split; vm_compute; reflexivity. Qed.

(** ** User actions and the debounce *)

(** C10: the suppression looks only at the age of the log's head, whatever
    its level.  After [induce] or [clearAll] at time [t], the head is the
    BREACH or CLEAR alert stamped [t], and an evaluation at [now] with
    [now - t < 9000] emits nothing, whatever the sensors read. *)
Theorem user_action_suppresses_detection
        (t now : Z) (r1 r2 r3 pos : Q) (label : string) (temps' : list Q) (s : State) :
  (now - t < 9000)%Z ->
  (option_map lvl (hd_error (alerts (induce t r1 r2 r3 pos label s))) = Some BREACH
   /\ alerts (detect now (setTemps temps' (induce t r1 r2 r3 pos label s)))
      = alerts (induce t r1 r2 r3 pos label s))
  /\ (option_map lvl (hd_error (alerts (clearAll t s))) = Some CLEAR
      /\ alerts (detect now (setTemps temps' (clearAll t s))) = alerts (clearAll t s))
  /\ (forall s', RecentAlert now (alerts s') -> alerts (detect now s') = alerts s').
Proof.
  intro H. split; [| split].
  - split; [reflexivity |].
    rewrite detect_suppressed; rewrite setTemps_alerts; [reflexivity |].
    rewrite alerts_induce. eexists _, _. split; [reflexivity | exact H].
  - split; [reflexivity |].
    rewrite detect_suppressed; rewrite setTemps_alerts; [reflexivity |].
    rewrite alerts_clearAll. eexists _, _. split; [reflexivity | exact H].
  - intros s'. apply detect_suppressed.
Qed.

(** Witness for C10: a 5.8 degree excursion 3 s after an induced breach. *)
Lemma user_action_suppresses_detection_witness :
  (3000 - 0 < 9000)%Z
  /\ (exists m, maxSpread (deltas (setTemps (hotAt 32 25)
                                           (induce 0 0.5 0.5 0.5 32 "Zone B" quiet)))
                = Some m /\ 4.5 < m)
  /\ (option_map lvl (hd_error (alerts (induce 0 0.5 0.5 0.5 32 "Zone B" quiet)))
      = Some BREACH
      /\ alerts (detect 3000 (setTemps (hotAt 32 25)
                                       (induce 0 0.5 0.5 0.5 32 "Zone B" quiet)))
         = alerts (induce 0 0.5 0.5 0.5 32 "Zone B" quiet)).
Proof.
  assert (H : (3000 - 0 < 9000)%Z) by lia.
  split; [exact H |].
  split; [eexists; split; vm_compute; reflexivity |].
  exact (proj1 (user_action_suppresses_detection 0 3000 0.5 0.5 0.5 32 "Zone B"
                                                 (hotAt 32 25) quiet H)).
Defined.

(** ** The risk score *)

Lemma clamp_range (x : Q) : 0 <= Qmin 1 (Qmax 0 x) <= 1.
Proof.
  split; [apply Q.min_glb; [lra | apply Q.le_max_l] | apply Q.le_min_l].
Qed.

Lemma thermalScore_range (s : State) : 0 <= thermalScore s <= 1.
Proof. apply clamp_range. Qed.

Lemma dpScore_range (s : State) : 0 <= dpScore s <= 1.
Proof. apply clamp_range. Qed.

Lemma rackScore_range (s : State) : 0 <= rackScore s <= 1.
Proof. apply clamp_range. Qed.

Lemma bari_range (s : State) : 0 <= bari s <= 1.
Proof.
  unfold bari. split; [| apply Q.le_min_l].
  pose proof (thermalScore_range s). pose proof (dpScore_range s).
  pose proof (rackScore_range s).
  apply Q.min_glb; lra.
Qed.

Lemma thermalScore_mono (s1 s2 : State) :
  maxDelta s1 <= maxDelta s2 -> thermalScore s1 <= thermalScore s2.
Proof.
  intro H. unfold thermalScore.
  apply Q.min_le_compat_l, Q.max_le_compat_l.
  unfold Qdiv. apply Qmult_le_compat_r; [lra | discriminate].
Qed.

(** C7: the composite score lies in [0,1] for every state, and between two
    states with the same pressure and rack sub-scores the one with the larger
    maxDelta has the larger or equal score. *)
Theorem bari_bounded_monotone (s s1 s2 : State) :
  dpScore s1 == dpScore s2 -> rackScore s1 == rackScore s2 ->
  maxDelta s1 <= maxDelta s2 ->
  0 <= bari s <= 1 /\ bari s1 <= bari s2.
Proof.
  intros Hp Hr Hm. split; [apply bari_range |].
  unfold bari. apply Q.min_le_compat_l.
  pose proof (thermalScore_mono s1 s2 Hm). lra.
Qed.

(** Witness for C7: the quiet engine against one with sensor 5 (outside the
    rack-mean window) 5.8 degrees above baseline. *)
Lemma bari_bounded_monotone_witness :
  dpScore quiet == dpScore (setTemps (hotAt 5 25) quiet)
  /\ rackScore quiet == rackScore (setTemps (hotAt 5 25) quiet)
  /\ maxDelta quiet <= maxDelta (setTemps (hotAt 5 25) quiet)
  /\ 0 <= bari (setTemps (hotAt 64 40) quiet) <= 1
  /\ bari quiet <= bari (setTemps (hotAt 5 25) quiet).
Proof.
  assert (Hp : dpScore quiet == dpScore (setTemps (hotAt 5 25) quiet))
    by (vm_compute; reflexivity).
  assert (Hr : rackScore quiet == rackScore (setTemps (hotAt 5 25) quiet))
    by (vm_compute; reflexivity).
  assert (Hm : maxDelta quiet <= maxDelta (setTemps (hotAt 5 25) quiet))
    by (vm_compute; discriminate).
  split; [exact Hp |]. split; [exact Hr |]. split; [exact Hm |].
  exact (bari_bounded_monotone (setTemps (hotAt 64 40) quiet) quiet
                               (setTemps (hotAt 5 25) quiet) Hp Hr Hm).
Defined.

(** The score does move: 0 on the quiet engine, 0.24 with the excursion. *)
Example bari_values :
  bari quiet == 0 /\ bari (setTemps (hotAt 5 25) quiet) == 0.24.
Proof. split; vm_compute; reflexivity. Qed.

(** ** Rack power *)

(** C9: the risk computation does not read the rack power array.  Two states
    with the same sensors, pressures and baselines have the same thermal,
    pressure and rack scores, the same BARI and the same classification,
    whatever their rack power arrays (and breaches, logs and counters). *)
Theorem rack_power_noninterference (s1 s2 : State) :
  temps s1 = temps s2 -> dpArr s1 = dpArr s2 ->
  baselineRef s1 = baselineRef s2 -> baseDpRef s1 = baseDpRef s2 ->
  computeRisk s1 = computeRisk s2.
Proof.
  intros Ht Hd Hb Hbd.
  unfold computeRisk, bariLabel, bari, thermalScore, dpScore, rackScore,
    maxDelta, dpDrop, rackMean, deltas.
  rewrite Ht, Hd, Hb, Hbd. reflexivity.
Qed.

Lemma rack_power_noninterference_witness :
  temps (setRackPwr (flat 93 N_RACKS) afterInduce) = temps afterInduce
  /\ dpArr (setRackPwr (flat 93 N_RACKS) afterInduce) = dpArr afterInduce
  /\ rackPwr (setRackPwr (flat 93 N_RACKS) afterInduce) <> rackPwr afterInduce
  /\ computeRisk (setRackPwr (flat 93 N_RACKS) afterInduce) = computeRisk afterInduce.
Proof.
  split; [reflexivity |]. split; [reflexivity |]. split; [discriminate |].
  exact (rack_power_noninterference (setRackPwr (flat 93 N_RACKS) afterInduce) afterInduce
                                    eq_refl eq_refl eq_refl eq_refl).
Defined.

(** The rack power a tick writes depends on the old rack power and the rack
    draws only, and no score reads it back. *)
Lemma computeRisk_setRackPwr (v : list Q) (s : State) :
  computeRisk (setRackPwr v s) = computeRisk s.
Proof. reflexivity. Qed.

(** ** The sensor update *)

Section SensorUpdate.

Variable exp : Q -> Q.
Hypothesis exp_compat : Proper (Qeq ==> Qeq) exp.

Lemma Qabs_square (x : Q) : Qabs x * Qabs x == x * x.
Proof.
  rewrite <- Qabs_Qmult. apply Qabs_pos.
  destruct (Qlt_le_dec x 0) as [N | P]; nra.
Qed.

Lemma plume_argument (x w : Q) :
  - 0.5 * (Qabs x / (w * 0.5)) ^ 2 == - 0.5 * (x / (0.5 * w)) ^ 2.
Proof.
  assert (C : w * 0.5 == 0.5 * w) by ring.
  rewrite C. unfold Qdiv. set (c := / (0.5 * w)).
  assert (E : (Qabs x * c) ^ 2 == Qabs x * Qabs x * (c * c)) by ring.
  rewrite E, Qabs_square. ring.
Qed.

(** One turn of the loop adds the plume of its breach. *)
Lemma tempLoopBody_plume (i : nat) (target : Q) (b : Breach) :
  tempLoopBody exp i target b == target + plume exp b i.
Proof.
  unfold tempLoopBody, plume.
  destruct (Qltb (Qabs (num i - b_pos b)) (b_w b * 2)) eqn:E1;
    destruct (Qltb (Qabs (num i - b_pos b)) (2 * b_w b)) eqn:E2.
  - rewrite (exp_compat _ _ (plume_argument (num i - b_pos b) (b_w b))).
    reflexivity.
  - apply Qltb_lt in E1. apply Qltb_ge in E2. lra.
  - apply Qltb_ge in E1. apply Qltb_lt in E2. lra.
  - ring.
Qed.

(** The whole loop adds the sum of the plumes. *)
Lemma tempLoop_sum (i : nat) (active : list Breach) :
  forall target,
    fold_left (tempLoopBody exp i) active target
    == target + Qsum (map (fun b => plume exp b i) active).
Proof.
  induction active as [| b r IH]; intro target; simpl.
  - ring.
  - rewrite IH, tempLoopBody_plume. ring.
Qed.

Lemma tickTemp_specReading (base : list Q) (active : list Breach) (u : nat -> Q)
      (i : nat) (t : Q) :
  tickTemp exp base active u i t == specReading exp base active u i t.
Proof.
  unfold tickTemp, specReading, specTarget, sensorNoise.
  rewrite tempLoop_sum. ring.
Qed.

Lemma temps_tick (now : Z) (d : Draws) (s : State) :
  temps (tick exp now d s)
  = mapi (tickTemp exp (baselineRef s) (liveBreaches now (breaches s)) (uTemp d))
         (temps s).
Proof. reflexivity. Qed.

Lemma Qsum_app (l1 l2 : list Q) : Qsum (l1 ++ l2) == Qsum l1 + Qsum l2.
Proof.
  induction l1 as [| x r IH]; simpl; [ring | rewrite IH; ring].
Qed.

(** C8: a tick keeps the number of sensors and sets sensor [i] to 0.68 of
    its previous reading plus 0.32 of the target: the baseline, a noise
    within 0.1 of zero, and the sum over the active breaches of their
    plumes.  A breach at or beyond the cut-off distance adds nothing, and
    the plumes of two groups of breaches add up, with no cap. *)
Theorem sensor_update (now : Z) (d : Draws) (s : State) (i : nat) :
  (i < length (temps s))%nat ->
  0 <= uTemp d i -> uTemp d i < 1 ->
  length (temps (tick exp now d s)) = length (temps s)
  /\ nth i (temps (tick exp now d s)) 0
     == 0.68 * nth i (temps s) 0
        + 0.32 * (idx (baselineRef s) i + sensorNoise (uTemp d i)
                  + Qsum (map (fun b => plume exp b i)
                              (liveBreaches now (breaches s))))
  /\ (- 0.1 <= sensorNoise (uTemp d i) /\ sensorNoise (uTemp d i) < 0.1)
  /\ (forall b target,
        2 * b_w b <= Qabs (num i - b_pos b) ->
        plume exp b i = 0 /\ tempLoopBody exp i target b = target)
  /\ (forall b,
        Qabs (num i - b_pos b) < 2 * b_w b ->
        plume exp b i
        = b_int b * exp (- 0.5 * ((num i - b_pos b) / (0.5 * b_w b)) ^ 2))
  /\ (forall l1 l2,
        Qsum (map (fun b => plume exp b i) (l1 ++ l2))
        == Qsum (map (fun b => plume exp b i) l1)
           + Qsum (map (fun b => plume exp b i) l2)).
Proof.
  intros Hi Hu0 Hu1.
  split; [rewrite temps_tick; apply length_mapi |].
  split.
  { rewrite temps_tick, (nth_mapi _ 0 0 _ i Hi), tickTemp_specReading.
    reflexivity. }
  split; [unfold sensorNoise; split; lra |].
  split.
  { intros b target H. unfold plume, tempLoopBody.
    assert (E2 : Qltb (Qabs (num i - b_pos b)) (2 * b_w b) = false)
      by (apply Qltb_ge; exact H).
    assert (E1 : Qltb (Qabs (num i - b_pos b)) (b_w b * 2) = false)
      by (apply Qltb_ge; lra).
    now rewrite E1, E2. }
  split.
  { intros b H. unfold plume. apply Qltb_lt in H. now rewrite H. }
  intros l1 l2. rewrite map_app. apply Qsum_app.
Qed.

End SensorUpdate.

Lemma expSeries_compat : Proper (Qeq ==> Qeq) expSeries.
Proof. intros x y E. unfold expSeries. now rewrite E. Qed.

(** Witness for C8: sensor 32 of the engine right after a breach is induced
    at position 32, at the tick 500 ms later with every draw at one half. *)
Lemma sensor_update_witness :
  (32 < length (temps afterInduce))%nat
  /\ 0 <= 0.5 /\ 0.5 < 1
  /\ nth 32 (temps (tick expSeries 500
                         (mkDraws (fun _ => 0.5) (fun _ => 0.5) (fun _ => 0.5) 0.5)
                         afterInduce)) 0
     == 0.68 * nth 32 (temps afterInduce) 0
        + 0.32 * (idx (baselineRef afterInduce) 32 + sensorNoise 0.5
                  + Qsum (map (fun b => plume expSeries b 32)
                              (liveBreaches 500 (breaches afterInduce)))).
Proof.
  assert (Hi : (32 < length (temps afterInduce))%nat) by (vm_compute; lia).
  assert (H0 : 0 <= 0.5) by (vm_compute; discriminate).
  assert (H1 : 0.5 < 1) by (vm_compute; reflexivity).
  split; [exact Hi |]. split; [exact H0 |]. split; [exact H1 |].
  exact (proj1 (proj2 (sensor_update expSeries expSeries_compat 500
                         (mkDraws (fun _ => 0.5) (fun _ => 0.5) (fun _ => 0.5) 0.5)
                         afterInduce 32 Hi H0 H1))).
Defined.

(** The same tick, computed: sensor 32 moves from 25 towards the target
    19.2 + 0 + 11.5 (the plume at its centre with the series at 0). *)
Example sensor_tick_value :
  nth 32 (temps (tick expSeries 500
                      (mkDraws (fun _ => 0.5) (fun _ => 0.5) (fun _ => 0.5) 0.5)
                      afterInduce)) 0
  == 0.68 * 25 + 0.32 * (19.2 + 0 + 11.5).
Proof. vm_compute. reflexivity. Qed.


(** * Further properties of the engine *)

(** ** Identifiers *)





Lemma detect_frame (now : Z) (s : State) :
  temps (detect now s) = temps s /\ dpArr (detect now s) = dpArr s
  /\ rackPwr (detect now s) = rackPwr s /\ breaches (detect now s) = breaches s
  /\ trend (detect now s) = trend s
  /\ baselineRef (detect now s) = baselineRef s /\ baseDpRef (detect now s) = baseDpRef s
  /\ breachIdRef (detect now s) = breachIdRef s.
Proof.
  unfold detect.
  destruct (maxSpread (deltas s)) as [m |]; [| repeat split].
  destruct (Qltb 4.5 m); repeat split.
Qed.




Lemma idsAscending_filter (p : Breach -> bool) (bs : list Breach) :
  idsAscending bs -> idsAscending (filter p bs).
Proof.
  induction bs as [| b rest IH]; intro H; [exact I |].
  destruct H as [Hh Ht]. cbn [filter].
  destruct (p b); [| now apply IH].
  cbn [idsAscending]. split; [| now apply IH].
  apply Forall_forall. intros c Hc. apply filter_In in Hc.
  rewrite Forall_forall in Hh. now apply Hh.
Qed.

Lemma idsAscending_snoc (bs : list Breach) (b : Breach) :
  idsAscending bs -> Forall (fun c => (b_id c < b_id b)%Z) bs ->
  idsAscending (bs ++ [b]).
Proof.
  induction bs as [| c rest IH]; intros Ha Hb.
  - cbn. split; [constructor | exact I].
  - destruct Ha as [Hh Ht]. inversion Hb as [| ? ? Hc Hr]; subst.
    cbn [app idsAscending]. split; [| now apply IH].
    apply Forall_app. split; [assumption | constructor; [assumption | constructor]].
Qed.

(** X2: The ids of the active breaches rise strictly along the list, are
    pairwise distinct and none is above the counter [breachIdRef], in every
    state the engine reaches from one with no breach. *)
Theorem breach_ids_ascending (exp : Q -> Q) (s0 s : State) :
  breaches s0 = [] -> reachable exp s0 s ->
  idsAscending (breaches s)
  /\ Forall (fun b => (b_id b <= breachIdRef s)%Z) (breaches s)
  /\ NoDup (map b_id (breaches s)).
Proof.
  intros H0 R.
  assert (Inv : idsAscending (breaches s)
                /\ Forall (fun b => (b_id b <= breachIdRef s)%Z) (breaches s)).
  { induction R as [| s s' _ IH St].
    - rewrite H0. split; [exact I | constructor].
    - destruct IH as [Ha Hb]. destruct St.
      + rewrite breaches_tick. unfold liveBreaches. split.
        * now apply idsAscending_filter.
        * apply Forall_forall. intros b Hin. apply filter_In in Hin.
          rewrite Forall_forall in Hb. now apply Hb.
      + destruct (detect_frame now s) as (_ & _ & _ & Eb & _ & _ & _ & Ei).
        rewrite Eb, Ei. split; assumption.
      + rewrite breaches_induce.
        change (breachIdRef (induce now r1 r2 r3 pos label s))
          with (breachIdRef s + 1)%Z.
        split.
        * apply idsAscending_snoc; [assumption |].
          revert Hb. apply Forall_impl. intros c Hle. cbn. lia.
        * apply Forall_app. split.
          -- revert Hb. apply Forall_impl. intros c Hle. lia.
          -- constructor; [cbn; lia | constructor].
      + split; [exact I | constructor]. }
  destruct Inv as [Ha Hb]. split; [assumption |]. split; [assumption |].
  clear Hb. induction (breaches s) as [| b rest IH]; [constructor |].
  destruct Ha as [Hh Ht]. cbn [map]. constructor; [| now apply IH].
  intro Hin. apply in_map_iff in Hin. destruct Hin as (c & Ec & Hc).
  rewrite Forall_forall in Hh. specialize (Hh c Hc). lia.
Qed.

Lemma breach_ids_ascending_witness :
  breaches quiet = []
  /\ reachable expSeries quiet (tick expSeries 500 halfDraws threeBreaches)
  /\ NoDup (map b_id (breaches (tick expSeries 500 halfDraws threeBreaches))).
Proof.
  assert (R : reachable expSeries quiet (tick expSeries 500 halfDraws threeBreaches)).
  { eapply reach_step; [| apply step_tick].
    eapply reach_step; [| apply step_induce].
    eapply reach_step; [| apply step_induce].
    eapply reach_step; [apply reach_init | apply step_induce]. }
  split; [reflexivity |]. split; [exact R |].
  exact (proj2 (proj2 (breach_ids_ascending expSeries quiet
                         (tick expSeries 500 halfDraws threeBreaches) eq_refl R))).
Defined.

(** ** Breach lifetime *)

Lemma isLive_earlier (now1 now2 : Z) (b : Breach) :
  (now1 <= now2)%Z -> isLive now2 b = true -> isLive now1 b = true.
Proof.
  intros Hle H. apply isLive_true in H. apply isLive_true.
  rewrite inject_Z_sub in *.
  assert (inject_Z now1 <= inject_Z now2) by (rewrite <- Zle_Qle; assumption).
  lra.
Qed.

Lemma filter_absorb {A : Type} (p q : A -> bool) (l : list A) :
  (forall x, q x = true -> p x = true) -> filter q (filter p l) = filter q l.
Proof.
  intro H. induction l as [| x r IH]; [reflexivity |].
  cbn [filter]. destruct (p x) eqn:Ep.
  - cbn [filter]. now rewrite IH.
  - rewrite IH. destruct (q x) eqn:Eq; [| reflexivity].
    apply H in Eq. congruence.
Qed.

(** X3: Two ticks in a row keep exactly the breaches the later one alone would
    keep: expiry depends on the time of the last tick only, and an expired
    breach never comes back while the clock does not run backwards. *)
Theorem ticks_compose_on_breaches
        (exp : Q -> Q) (now1 now2 : Z) (d1 d2 : Draws) (s : State) :
  (now1 <= now2)%Z ->
  breaches (tick exp now2 d2 (tick exp now1 d1 s)) = breaches (tick exp now2 d2 s)
  /\ (forall b, In b (breaches (tick exp now2 d2 (tick exp now1 d1 s))) ->
                In b (breaches (tick exp now1 d1 s))).
Proof.
  intro Hle. rewrite !breaches_tick. unfold liveBreaches. split.
  - apply filter_absorb. intro b. now apply isLive_earlier.
  - intros b Hin. apply filter_In in Hin. tauto.
Qed.

Lemma ticks_compose_on_breaches_witness :
  (59999 <= 60000)%Z
  /\ breaches (tick expSeries 60000 halfDraws
                    (tick expSeries 59999 halfDraws (setBreaches [minuteBreach] quiet)))
     = breaches (tick expSeries 60000 halfDraws (setBreaches [minuteBreach] quiet)).
Proof.
  assert (H : (59999 <= 60000)%Z) by lia.
  split; [exact H |].
  exact (proj1 (ticks_compose_on_breaches expSeries 59999 60000 halfDraws halfDraws
                                          (setBreaches [minuteBreach] quiet) H)).
Defined.

(** X4: A breach made by [induce] at time [t] lives between 55 and 80 seconds:
    it is in the active set of every tick before [t + 55000] and of no tick
    from [t + 80000] on, whatever the draw of its duration. *)
Theorem induced_breach_lifetime
        (exp : Q -> Q) (t now : Z) (d : Draws) (r1 r2 r3 pos : Q) (label : string)
        (s : State) :
  0 <= r3 -> r3 < 1 ->
  ((now - t < 55000)%Z ->
   In (newBreach (breachIdRef s + 1) t pos label r1 r2 r3)
      (breaches (tick exp now d (induce t r1 r2 r3 pos label s))))
  /\ ((80000 <= now - t)%Z ->
      ~ In (newBreach (breachIdRef s + 1) t pos label r1 r2 r3)
           (breaches (tick exp now d (induce t r1 r2 r3 pos label s)))).
Proof.
  intros H0 H1. rewrite breaches_tick, breaches_induce. unfold liveBreaches.
  split; intro H.
  - apply filter_In. split; [apply in_or_app; right; now left |].
    apply isLive_true. cbn [b_t b_dur newBreach].
    assert (inject_Z (now - t) < 55000)
      by (change 55000 with (inject_Z 55000); rewrite <- Zlt_Qlt; assumption).
    nra.
  - intro Hin. apply filter_In in Hin. destruct Hin as [_ L].
    apply isLive_true in L. cbn [b_t b_dur newBreach] in L.
    assert (80000 <= inject_Z (now - t))
      by (change 80000 with (inject_Z 80000); rewrite <- Zle_Qle; assumption).
    nra.
Qed.

Lemma induced_breach_lifetime_witness :
  0 <= 0.5 /\ 0.5 < 1
  /\ ((54999 - 0 < 55000)%Z ->
      In (newBreach (breachIdRef quiet + 1) 0 32 "Zone B" 0.5 0.5 0.5)
         (breaches (tick expSeries 54999 halfDraws (induce 0 0.5 0.5 0.5 32 "Zone B" quiet)))).
Proof.
  assert (H0 : 0 <= 0.5) by (vm_compute; discriminate).
  assert (H1 : 0.5 < 1) by (vm_compute; reflexivity).
  split; [exact H0 |]. split; [exact H1 |].
  exact (proj1 (induced_breach_lifetime expSeries 0 54999 halfDraws 0.5 0.5 0.5 32
                                        "Zone B" quiet H0 H1)).
Defined.

(** ** What stays fixed *)

Lemma tick_frame (exp : Q -> Q) (now : Z) (d : Draws) (s : State) :
  length (temps (tick exp now d s)) = length (temps s)
  /\ length (dpArr (tick exp now d s)) = length (dpArr s)
  /\ length (rackPwr (tick exp now d s)) = length (rackPwr s)
  /\ baselineRef (tick exp now d s) = baselineRef s
  /\ baseDpRef (tick exp now d s) = baseDpRef s.
Proof.
  unfold tick. cbn [temps dpArr rackPwr baselineRef baseDpRef setTrend setRackPwr
                      setDpArr setTemps setBreaches].
  rewrite !length_mapi. repeat split.
Qed.

(** X5: The three arrays keep their lengths and the two baselines their values
    for the whole life of the engine: no event resizes an array or touches a
    baseline. *)
Theorem arrays_fixed (exp : Q -> Q) (s0 s : State) :
  reachable exp s0 s ->
  length (temps s) = length (temps s0)
  /\ length (dpArr s) = length (dpArr s0)
  /\ length (rackPwr s) = length (rackPwr s0)
  /\ baselineRef s = baselineRef s0
  /\ baseDpRef s = baseDpRef s0.
Proof.
  intro R. induction R as [| s s' _ IH St]; [repeat split |].
  destruct IH as (I1 & I2 & I3 & I4 & I5). destruct St.
  - destruct (tick_frame exp now d s) as (E1 & E2 & E3 & E4 & E5).
    rewrite E1, E2, E3, E4, E5. repeat split; assumption.
  - destruct (detect_frame now s) as (E1 & E2 & E3 & _ & _ & E4 & E5 & _).
    rewrite E1, E2, E3, E4, E5. repeat split; assumption.
  - repeat split; assumption.
  - repeat split; assumption.
Qed.

Lemma arrays_fixed_witness :
  reachable expSeries quiet (tick expSeries 500 halfDraws threeBreaches)
  /\ length (temps (tick expSeries 500 halfDraws threeBreaches)) = length (temps quiet).
Proof.
  assert (R : reachable expSeries quiet (tick expSeries 500 halfDraws threeBreaches)).
  { eapply reach_step; [| apply step_tick].
    eapply reach_step; [| apply step_induce].
    eapply reach_step; [| apply step_induce].
    eapply reach_step; [apply reach_init | apply step_induce]. }
  split; [exact R |].
  exact (proj1 (arrays_fixed expSeries quiet (tick expSeries 500 halfDraws threeBreaches) R)).
Defined.

(** ** The sensor update, qualitatively *)

Lemma nth_temps_tick (exp : Q -> Q) (now : Z) (d : Draws) (s : State) (i : nat) :
  (i < length (temps s))%nat ->
  nth i (temps (tick exp now d s)) 0
  = tickTemp exp (baselineRef s) (liveBreaches now (breaches s)) (uTemp d) i
             (nth i (temps s) 0).
Proof.
  intro Hi. change (temps (tick exp now d s))
    with (mapi (tickTemp exp (baselineRef s) (liveBreaches now (breaches s)) (uTemp d))
               (temps s)).
  apply (nth_mapi _ 0 0 _ i Hi).
Qed.

Lemma Qabs_bounds (x : Q) : - Qabs x <= x /\ x <= Qabs x.
Proof.
  apply Qabs_Qle_condition. apply Qle_refl.
Qed.

Lemma sensor_contracts (exp : Q -> Q) (now : Z) (d : Draws) (s : State) (i : nat) :
  (i < length (temps s))%nat ->
  0 <= uTemp d i -> uTemp d i < 1 ->
  liveBreaches now (breaches s) = [] ->
  Qabs (nth i (temps (tick exp now d s)) 0 - idx (baselineRef (tick exp now d s)) i)
  <= 0.68 * Qabs (nth i (temps s) 0 - idx (baselineRef s) i) + 0.032.
Proof.
  intros Hi H0 H1 Hl.
  rewrite (nth_temps_tick exp now d s i Hi), Hl.
  change (baselineRef (tick exp now d s)) with (baselineRef s).
  unfold tickTemp. cbn [fold_left].
  destruct (Qabs_bounds (nth i (temps s) 0 - idx (baselineRef s) i)) as [L U].
  apply Qabs_Qle_condition. split; lra.
Qed.

(** X6: With no active breach a tick pulls every sensor towards its baseline:
    the distance to the baseline shrinks to 0.68 of its value, up to the
    0.032 the noise can add.  So there is no drift: a reading within 0.1 of
    its baseline stays within 0.1. *)
Theorem sensor_relaxes (exp : Q -> Q) (now : Z) (d : Draws) (s : State) (i : nat) :
  (i < length (temps s))%nat ->
  0 <= uTemp d i -> uTemp d i < 1 ->
  liveBreaches now (breaches s) = [] ->
  Qabs (nth i (temps (tick exp now d s)) 0 - idx (baselineRef (tick exp now d s)) i)
  <= 0.68 * Qabs (nth i (temps s) 0 - idx (baselineRef s) i) + 0.032.
Proof. intros; now apply sensor_contracts. Qed.

Lemma sensor_relaxes_witness :
  (32 < length (temps (setTemps (hotAt 32 25) quiet)))%nat
  /\ 0 <= 0.5 /\ 0.5 < 1
  /\ liveBreaches 500 (breaches (setTemps (hotAt 32 25) quiet)) = []
  /\ Qabs (nth 32 (temps (tick expSeries 500 halfDraws (setTemps (hotAt 32 25) quiet))) 0
           - idx (baselineRef (tick expSeries 500 halfDraws (setTemps (hotAt 32 25) quiet))) 32)
     <= 0.68 * Qabs (nth 32 (temps (setTemps (hotAt 32 25) quiet)) 0
                     - idx (baselineRef (setTemps (hotAt 32 25) quiet)) 32) + 0.032.
Proof.
  assert (Hi : (32 < length (temps (setTemps (hotAt 32 25) quiet)))%nat)
    by (vm_compute; lia).
  assert (H0 : 0 <= 0.5) by (vm_compute; discriminate).
  assert (H1 : 0.5 < 1) by (vm_compute; reflexivity).
  split; [exact Hi |]. split; [exact H0 |]. split; [exact H1 |].
  split; [reflexivity |].
  exact (sensor_relaxes expSeries 500 halfDraws (setTemps (hotAt 32 25) quiet) 32
                        Hi H0 H1 eq_refl).
Defined.

Lemma tempLoop_ge (exp : Q -> Q) (i : nat) (active : list Breach) :
  (forall x, 0 <= exp x) -> Forall (fun b => 0 <= b_int b) active ->
  forall target, target <= fold_left (tempLoopBody exp i) active target.
Proof.
  intros He Hi. induction Hi as [| b r Hb _ IH]; intro target; cbn [fold_left].
  - apply Qle_refl.
  - apply Qle_trans with (tempLoopBody exp i target b); [| apply IH].
    unfold tempLoopBody.
    destruct (Qltb (Qabs (num i - b_pos b)) (b_w b * 2)); [| apply Qle_refl].
    specialize (He (- 0.5 * (Qabs (num i - b_pos b) / (b_w b * 0.5)) ^ 2)).
    nra.
Qed.

(** X7: Breaches only heat: with intensities that are not negative and an
    exponential that is never negative, the reading a tick gives a sensor is
    at least the one the same tick, with the same draws, gives it when no
    breach is active. *)
Theorem breaches_only_heat (exp : Q -> Q) (now : Z) (d : Draws) (s : State) (i : nat) :
  (forall x, 0 <= exp x) ->
  Forall (fun b => 0 <= b_int b) (breaches s) ->
  (i < length (temps s))%nat ->
  nth i (temps (tick exp now d (setBreaches [] s))) 0
  <= nth i (temps (tick exp now d s)) 0.
Proof.
  intros He Hb Hi.
  rewrite (nth_temps_tick exp now d s i Hi).
  rewrite (nth_temps_tick exp now d (setBreaches [] s) i Hi).
  cbn [breaches setBreaches temps baselineRef liveBreaches filter].
  unfold tickTemp. cbn [fold_left].
  assert (Hl : Forall (fun b => 0 <= b_int b) (liveBreaches now (breaches s))).
  { apply Forall_forall. intros b Hin. apply filter_In in Hin.
    rewrite Forall_forall in Hb. now apply Hb. }
  pose proof (tempLoop_ge exp i _ He Hl
                (idx (baselineRef s) i + (uTemp d i - 0.5) * 0.2)) as G.
  change (filter (isLive now) (breaches s)) with (liveBreaches now (breaches s)).
  lra.
Qed.

(** A stand-in for [Math.exp] that is never negative. *)
Lemma expSeries_nonneg (x : Q) : 0 <= expSeries x.
Proof.
  unfold expSeries.
  assert (0 <= (x + 1) * (x + 1))
    by (rewrite <- (Qabs_square (x + 1)); apply Qmult_le_0_compat; apply Qabs_nonneg).
  assert (E : 1 + x + x * x / 2 == ((x + 1) * (x + 1) + 1) / 2) by field.
  rewrite E. apply Qle_shift_div_l; [reflexivity | lra].
Qed.

Lemma breaches_only_heat_witness :
  Forall (fun b => 0 <= b_int b) (breaches afterInduce)
  /\ (32 < length (temps afterInduce))%nat
  /\ nth 32 (temps (tick expSeries 500 halfDraws (setBreaches [] afterInduce))) 0
     <= nth 32 (temps (tick expSeries 500 halfDraws afterInduce)) 0.
Proof.
  assert (Hb : Forall (fun b => 0 <= b_int b) (breaches afterInduce))
    by (repeat constructor; vm_compute; discriminate).
  assert (Hi : (32 < length (temps afterInduce))%nat) by (vm_compute; lia).
  split; [exact Hb |]. split; [exact Hi |].
  exact (breaches_only_heat expSeries 500 halfDraws afterInduce 32
                            expSeries_nonneg Hb Hi).
Defined.

(** ** The pressure update *)

Lemma nth_dpArr_tick (exp : Q -> Q) (now : Z) (d : Draws) (s : State) (i : nat) :
  (i < length (dpArr s))%nat ->
  nth i (dpArr (tick exp now d s)) 0
  = tickDp (baseDpRef s) (liveBreaches now (breaches s)) (uDp d) i (nth i (dpArr s) 0).
Proof.
  intro Hi. change (dpArr (tick exp now d s))
    with (mapi (tickDp (baseDpRef s) (liveBreaches now (breaches s)) (uDp d)) (dpArr s)).
  apply (nth_mapi _ 0 0 _ i Hi).
Qed.

Lemma dpLoop_le (i : nat) (active : list Breach) :
  Forall (fun b => 0 <= b_int b) active ->
  forall target, fold_left (dpLoopBody i) active target <= target.
Proof.
  intro Hi. induction Hi as [| b r Hb _ IH]; intro target; cbn [fold_left].
  - apply Qle_refl.
  - apply Qle_trans with (dpLoopBody i target b); [apply IH |].
    unfold dpLoopBody.
    pose proof (Q.le_max_l 0 (1 - Qabs (b_pos b - (num i + 0.5) * (num N_SENSORS / 4))
                                  / (num N_SENSORS / 3))) as M.
    assert (0 <= b_int b / 14) by (apply Qle_shift_div_l; [reflexivity | lra]).
    nra.
Qed.

Lemma dpLoop_far (i : nat) (active : list Breach) :
  Forall (fun b => num N_SENSORS / 3 <= Qabs (b_pos b - zoneCentre i)) active ->
  forall target, fold_left (dpLoopBody i) active target == target.
Proof.
  intro Hf. induction Hf as [| b r Hb _ IH]; intro target; cbn [fold_left].
  - reflexivity.
  - rewrite IH. unfold dpLoopBody. unfold zoneCentre in Hb.
    set (dist := Qabs (b_pos b - (num i + 0.5) * (num N_SENSORS / 4))) in *.
    assert (E : Qmax 0 (1 - dist / (num N_SENSORS / 3)) == 0).
    { apply Q.max_l.
      assert (1 <= dist / (num N_SENSORS / 3))
        by (apply Qle_shift_div_l; [reflexivity | lra]).
      lra. }
    rewrite E. ring.
Qed.

(** X8: Breaches only lower the pressure: with intensities that are not
    negative, the reading a tick gives a pressure zone is at most the one the
    same tick gives it with no breach; and it is exactly that one when every
    active breach is at least [N_SENSORS / 3] = 40 positions away from the
    centre of the zone. *)
Theorem pressure_drop (exp : Q -> Q) (now : Z) (d : Draws) (s : State) (i : nat) :
  (i < length (dpArr s))%nat ->
  Forall (fun b => 0 <= b_int b) (breaches s) ->
  nth i (dpArr (tick exp now d s)) 0
  <= nth i (dpArr (tick exp now d (setBreaches [] s))) 0
  /\ (Forall (fun b => 40 <= Qabs (b_pos b - zoneCentre i)) (breaches s) ->
      nth i (dpArr (tick exp now d s)) 0
      == nth i (dpArr (tick exp now d (setBreaches [] s))) 0).
Proof.
  intros Hi Hb.
  rewrite (nth_dpArr_tick exp now d s i Hi).
  rewrite (nth_dpArr_tick exp now d (setBreaches [] s) i Hi).
  cbn [breaches setBreaches dpArr baseDpRef liveBreaches filter].
  change (filter (isLive now) (breaches s)) with (liveBreaches now (breaches s)).
  unfold tickDp. cbn [fold_left]. split.
  - assert (Hl : Forall (fun b => 0 <= b_int b) (liveBreaches now (breaches s))).
    { apply Forall_forall. intros b Hin. apply filter_In in Hin.
      rewrite Forall_forall in Hb. now apply Hb. }
    pose proof (dpLoop_le i _ Hl (idx (baseDpRef s) i + (uDp d i - 0.5) * 0.7)).
    lra.
  - intro Hf.
    assert (Hl : Forall (fun b => num N_SENSORS / 3 <= Qabs (b_pos b - zoneCentre i))
                        (liveBreaches now (breaches s))).
    { apply Forall_forall. intros b Hin. apply filter_In in Hin.
      rewrite Forall_forall in Hf. destruct Hin as [Hin _].
      specialize (Hf b Hin).
      assert (E : num N_SENSORS / 3 == 40) by reflexivity.
      rewrite E. exact Hf. }
    rewrite (dpLoop_far i _ Hl). reflexivity.
Qed.

Lemma pressure_drop_witness :
  (0 < length (dpArr threeBreaches))%nat
  /\ Forall (fun b => 0 <= b_int b) (breaches threeBreaches)
  /\ nth 0 (dpArr (tick expSeries 500 halfDraws threeBreaches)) 0
     <= nth 0 (dpArr (tick expSeries 500 halfDraws (setBreaches [] threeBreaches))) 0.
Proof.
  assert (Hi : (0 < length (dpArr threeBreaches))%nat) by (vm_compute; lia).
  assert (Hb : Forall (fun b => 0 <= b_int b) (breaches threeBreaches))
    by (repeat constructor; vm_compute; discriminate).
  split; [exact Hi |]. split; [exact Hb |].
  exact (proj1 (pressure_drop expSeries 500 halfDraws threeBreaches 0 Hi Hb)).
Defined.

(** The drop is real: zone 0 of the engine with three breaches loses
    pressure in one tick, against none without them. *)
Example pressure_drop_value :
  nth 0 (dpArr (tick expSeries 500 halfDraws threeBreaches)) 0
  < nth 0 (dpArr (tick expSeries 500 halfDraws (setBreaches [] threeBreaches))) 0.
Proof. vm_compute. reflexivity. Qed.

(** ** Rack power and trend *)

Lemma Forall_mapi {A B : Type} (P : A -> Prop) (R : B -> Prop) (f : nat -> A -> B)
      (l : list A) :
  (forall i x, P x -> R (f i x)) -> Forall P l -> Forall R (mapi f l).
Proof.
  intros H Hl. unfold mapi. generalize 0%nat.
  induction Hl as [| x r Hx _ IH]; intro k; cbn [mapi_from]; constructor.
  - now apply H.
  - apply IH.
Qed.

(** X9: Rack power stays in the band it starts in: every value between 62 and
    97 kW (the range of [makeRackPower]) is between 62 and 97 after a tick,
    and in general any band that contains [65, 93] is kept. *)
Theorem rack_power_band (exp : Q -> Q) (now : Z) (d : Draws) (s : State) (lo hi : Q) :
  lo <= 65 -> 93 <= hi ->
  (forall i, 0 <= uRack d i /\ uRack d i < 1) ->
  Forall (fun v => lo <= v /\ v <= hi) (rackPwr s) ->
  Forall (fun v => lo <= v /\ v <= hi) (rackPwr (tick exp now d s)).
Proof.
  intros Hlo Hhi Hu Hb.
  change (rackPwr (tick exp now d s)) with (mapi (tickRack (uRack d)) (rackPwr s)).
  revert Hb. apply Forall_mapi. intros i v [L U]. unfold tickRack.
  destruct (Hu i) as [U0 U1]. split; lra.
Qed.

Lemma rack_power_band_witness :
  62 <= 65 /\ 93 <= 97
  /\ Forall (fun v => 62 <= v /\ v <= 97) (rackPwr quiet)
  /\ Forall (fun v => 62 <= v /\ v <= 97) (rackPwr (tick expSeries 500 halfDraws quiet)).
Proof.
  assert (H1 : 62 <= 65) by (vm_compute; discriminate).
  assert (H2 : 93 <= 97) by (vm_compute; discriminate).
  assert (Hu : forall i : nat, 0 <= uRack halfDraws i /\ uRack halfDraws i < 1)
    by (intro i; split; vm_compute; [discriminate | reflexivity]).
  assert (Hb : Forall (fun v => 62 <= v /\ v <= 97) (rackPwr quiet))
    by (repeat constructor; vm_compute; discriminate).
  split; [exact H1 |]. split; [exact H2 |]. split; [exact Hb |].
  exact (rack_power_band expSeries 500 halfDraws quiet 62 97 H1 H2 Hu Hb).
Defined.

Lemma fold_max_gt (c : Q) (bs : list Breach) :
  forall a, c < fold_left (fun mx b => Qmax mx (b_int b)) bs a
            <-> c < a \/ Exists (fun b => c < b_int b) bs.
Proof.
  induction bs as [| b r IH]; intro a; cbn [fold_left].
  - split; [now left | intros [H | H]; [assumption | inversion H]].
  - rewrite IH, Q.max_lt_iff. split.
    + intros [[H | H] | H]; [now left | right; now left | right; now right].
    + intros [H | H]; [left; now left |].
      inversion H; subst; [left; now right | now right].
Qed.

(** X10: The trend a tick leaves is either 0 or between 0.65 and 1, and it is
    positive exactly when some breach still active at that tick has an
    intensity above 2; the countdown [timeToLimit] is shown ([Some]) in
    exactly that case, and is never negative. *)
Theorem trend_after_tick (exp : Q -> Q) (now : Z) (d : Draws) (s : State) :
  0 <= uTrend d -> uTrend d < 1 ->
  (trend (tick exp now d s) == 0
   \/ (0.65 <= trend (tick exp now d s) /\ trend (tick exp now d s) < 1))
  /\ (0 < trend (tick exp now d s)
      <-> Exists (fun b => 2 < b_int b) (breaches (tick exp now d s)))
  /\ (timeToLimit (tick exp now d s) <> None
      <-> Exists (fun b => 2 < b_int b) (breaches (tick exp now d s)))
  /\ (forall v, timeToLimit (tick exp now d s) = Some v -> 0 <= v).
Proof.
  intros H0 H1. rewrite breaches_tick.
  set (live := liveBreaches now (breaches s)).
  assert (Et : trend (tick exp now d s)
               = if Qltb 2 (fold_left (fun mx b => Qmax mx (b_int b)) live 0)
                 then 0.65 + uTrend d * 0.35 else 0) by reflexivity.
  assert (Hx : Qltb 2 (fold_left (fun mx b => Qmax mx (b_int b)) live 0) = true
               <-> Exists (fun b => 2 < b_int b) live).
  { rewrite Qltb_lt, fold_max_gt. split; [intros [H | H]; [lra | assumption] | now right]. }
  assert (Hpos : 0 < trend (tick exp now d s) <-> Exists (fun b => 2 < b_int b) live).
  { rewrite <- Hx, Et.
    destruct (Qltb 2 (fold_left (fun mx b => Qmax mx (b_int b)) live 0)).
    - split; [reflexivity | intros _; lra].
    - split; [intro H; lra | discriminate]. }
  split; [| split; [exact Hpos | split]].
  - rewrite Et.
    destruct (Qltb 2 (fold_left (fun mx b => Qmax mx (b_int b)) live 0));
      [right; split; lra | left; reflexivity].
  - rewrite <- Hpos. unfold timeToLimit.
    destruct (Qltb 0 (trend (tick exp now d s))) eqn:E.
    + apply Qltb_lt in E. split; [intros _; assumption | discriminate].
    + apply Qltb_ge in E. split; [intro H; now contradiction H | intro H; lra].
  - intros v Hv. unfold timeToLimit in Hv.
    destruct (Qltb 0 (trend (tick exp now d s))); [| discriminate].
    injection Hv as <-. apply Q.le_max_l.
Qed.

Lemma trend_after_tick_witness :
  0 <= uTrend halfDraws /\ uTrend halfDraws < 1
  /\ (0 < trend (tick expSeries 500 halfDraws threeBreaches)
      <-> Exists (fun b => 2 < b_int b) (breaches (tick expSeries 500 halfDraws threeBreaches))).
Proof.
  assert (H0 : 0 <= uTrend halfDraws) by (vm_compute; discriminate).
  assert (H1 : uTrend halfDraws < 1) by (vm_compute; reflexivity).
  split; [exact H0 |]. split; [exact H1 |].
  exact (proj1 (proj2 (trend_after_tick expSeries 500 halfDraws threeBreaches H0 H1))).
Defined.

(** ** The peak the detection effect reports *)

Lemma Qmax_cases (x y : Q) : Qmax x y = x \/ Qmax x y = y.
Proof.
  unfold Qmax, GenericMinMax.gmax. destruct (x ?= y); auto.
Qed.

Lemma fold_max_In (r : list Q) : forall x, In (fold_left Qmax r x) (x :: r).
Proof.
  induction r as [| y r IH]; intro x; cbn [fold_left]; [now left |].
  destruct (IH (Qmax x y)) as [E | Hin].
  - destruct (Qmax_cases x y) as [Ex | Ey].
    + left. congruence.
    + right. left. congruence.
  - right. now right.
Qed.

Lemma fold_max_ub (r : list Q) :
  forall x, x <= fold_left Qmax r x /\ Forall (fun y => y <= fold_left Qmax r x) r.
Proof.
  induction r as [| y r IH]; intro x; cbn [fold_left].
  - split; [apply Qle_refl | constructor].
  - destruct (IH (Qmax x y)) as [Hx Hr]. split.
    + apply Qle_trans with (Qmax x y); [apply Q.le_max_l | assumption].
    + constructor; [| assumption].
      apply Qle_trans with (Qmax x y); [apply Q.le_max_r | assumption].
Qed.

Lemma maxSpread_In (l : list Q) (m : Q) : maxSpread l = Some m -> In m l.
Proof.
  destruct l as [| x r]; [discriminate |]. intro H. injection H as <-.
  apply fold_max_In.
Qed.

Lemma maxSpread_ub (l : list Q) (m : Q) :
  maxSpread l = Some m -> Forall (fun y => y <= m) l.
Proof.
  destruct l as [| x r]; [discriminate |]. intro H. injection H as <-.
  destruct (fold_max_ub r x). now constructor.
Qed.

Lemma indexOf_from_found (v : Q) (l : list Q) :
  In v l ->
  forall k, exists n,
      indexOf_from k v l = (k + Z.of_nat n)%Z
      /\ (n < length l)%nat /\ nth n l 0 == v
      /\ (forall j, (j < n)%nat -> ~ nth j l 0 == v).
Proof.
  induction l as [| x r IH]; intros Hin k; [destruct Hin |].
  cbn [indexOf_from]. destruct (Qeq_bool x v) eqn:E.
  - exists 0%nat. repeat split.
    + lia.
    + cbn. lia.
    + cbn. now apply Qeq_bool_iff.
    + intros j Hj. lia.
  - assert (Hr : In v r).
    { destruct Hin as [-> | H]; [| assumption].
      rewrite (proj2 (Qeq_bool_iff v v) (Qeq_refl v)) in E. discriminate. }
    destruct (IH Hr (k + 1)%Z) as (n & En & Hn & Hv & Hfirst).
    exists (S n). repeat split.
    + rewrite En. lia.
    + cbn. lia.
    + exact Hv.
    + intros j Hj. destruct j as [| j]; cbn.
      * intro Heq. apply Qeq_bool_iff in Heq. congruence.
      * apply Hfirst. lia.
Qed.

Lemma nth_deltas (s : State) (j : nat) :
  (j < length (temps s))%nat ->
  nth j (deltas s) 0 = nth j (temps s) 0 - idx (baselineRef s) j.
Proof.
  intro Hj. unfold deltas.
  exact (nth_mapi (fun i t => t - idx (baselineRef s) i) 0 0 (temps s) j Hj).
Qed.

Lemma length_deltas (s : State) : length (deltas s) = length (temps s).
Proof. apply length_mapi. Qed.

Lemma peak_facts (s : State) (m : Q) :
  maxSpread (deltas s) = Some m ->
  exists k : nat,
    indexOf m (deltas s) = Z.of_nat k
    /\ (k < length (temps s))%nat
    /\ nth k (temps s) 0 - idx (baselineRef s) k == m
    /\ (forall j, (j < k)%nat -> nth j (temps s) 0 - idx (baselineRef s) j < m)
    /\ (forall j, (j < length (temps s))%nat ->
                  nth j (temps s) 0 - idx (baselineRef s) j <= m).
Proof.
  intro Hm.
  pose proof (maxSpread_ub _ _ Hm) as Hub. rewrite Forall_forall in Hub.
  assert (Hall : forall j, (j < length (temps s))%nat ->
                           nth j (temps s) 0 - idx (baselineRef s) j <= m).
  { intros j Hj. rewrite <- (nth_deltas s j Hj). apply Hub, nth_In.
    now rewrite length_deltas. }
  destruct (indexOf_from_found m (deltas s) (maxSpread_In _ _ Hm) 0%Z)
    as (k & Ek & Hk & Hv & Hfirst).
  rewrite length_deltas in Hk.
  exists k. split; [exact Ek |]. split; [exact Hk |].
  split; [now rewrite <- (nth_deltas s k Hk) |].
  split; [| exact Hall].
  intros j Hj.
  assert (Hjl : (j < length (temps s))%nat) by lia.
  specialize (Hfirst j Hj). rewrite (nth_deltas s j Hjl) in Hfirst.
  specialize (Hall j Hjl).
  apply Qle_lteq in Hall. destruct Hall; [assumption | contradiction].
Qed.

(** X11: The peak of the detection effect: when [Math.max(...deltas)] is [m],
    [peakIdx] is a sensor index, the first one whose reading is [m] above
    its baseline, and no sensor is further above its baseline than [m]. *)
Theorem peak_is_first_hottest (s : State) (m : Q) :
  maxSpread (deltas s) = Some m ->
  exists k : nat,
    indexOf m (deltas s) = Z.of_nat k
    /\ (k < length (temps s))%nat
    /\ nth k (temps s) 0 - idx (baselineRef s) k == m
    /\ (forall j, (j < k)%nat -> nth j (temps s) 0 - idx (baselineRef s) j < m)
    /\ (forall j, (j < length (temps s))%nat ->
                  nth j (temps s) 0 - idx (baselineRef s) j <= m).
Proof. intros; now apply peak_facts. Qed.

Lemma peak_is_first_hottest_witness :
  maxSpread (deltas afterInduce) = Some (58 # 10)
  /\ exists k : nat,
      indexOf (58 # 10) (deltas afterInduce) = Z.of_nat k
      /\ (k < length (temps afterInduce))%nat
      /\ nth k (temps afterInduce) 0 - idx (baselineRef afterInduce) k == 58 # 10
      /\ (forall j, (j < k)%nat ->
                    nth j (temps afterInduce) 0 - idx (baselineRef afterInduce) j < 58 # 10)
      /\ (forall j, (j < length (temps afterInduce))%nat ->
                    nth j (temps afterInduce) 0 - idx (baselineRef afterInduce) j <= 58 # 10).
Proof.
  split; [vm_compute; reflexivity |].
  exact (peak_is_first_hottest afterInduce (58 # 10) eq_refl).
Defined.

Lemma detect_fixpoint_iff (now : Z) (s : State) :
  detect now s = s
  <-> (forall j, (j < length (temps s))%nat ->
                 nth j (temps s) 0 - idx (baselineRef s) j <= 4.5).
Proof.
  split.
  - intros E j Hj.
    destruct (maxSpread (deltas s)) as [m |] eqn:Hm.
    + destruct (Qlt_le_dec 4.5 m) as [Hlt | Hle].
      * exfalso. apply (f_equal alertIdRef) in E. unfold detect in E.
        rewrite Hm in E. apply Qltb_lt in Hlt. rewrite Hlt in E.
        cbn in E. lia.
      * destruct (peak_facts s m Hm) as (_ & _ & _ & _ & _ & Hall).
        apply Qle_trans with m; [now apply Hall | assumption].
    + pose proof (length_deltas s) as L.
      destruct (deltas s); [| discriminate]. cbn in L. lia.
  - intro Hall.
    destruct (maxSpread (deltas s)) as [m |] eqn:Hm.
    + apply (detect_quiet now s m Hm).
      destruct (peak_facts s m Hm) as (k & _ & Hk & Ek & _).
      rewrite <- Ek. now apply Hall.
    + unfold detect. now rewrite Hm.
Qed.

(** X12: The detection effect is silent exactly on a cool array: it leaves the
    whole state, counter included, as it is if and only if no sensor reads
    more than 4.5 above its baseline. *)
Theorem detect_silent_iff_cool (now : Z) (s : State) :
  detect now s = s
  <-> (forall j, (j < length (temps s))%nat ->
                 nth j (temps s) 0 - idx (baselineRef s) j <= 4.5).
Proof. apply detect_fixpoint_iff. Qed.

(** The two sides of the threshold, computed. *)
Example detect_threshold :
  detect 0 (setTemps (hotAt 32 23.7) quiet) = setTemps (hotAt 32 23.7) quiet
  /\ map lvl (alerts (detect 0 (setTemps (hotAt 32 23.8) quiet))) = [WARNING]
  /\ map lvl (alerts (detect 0 (setTemps (hotAt 32 26.2) quiet))) = [WARNING]
  /\ map lvl (alerts (detect 0 (setTemps (hotAt 32 26.3) quiet))) = [CRITICAL].
Proof. repeat split. Qed.

(** ** The unattended engine *)

Lemma inBand_tick (exp : Q -> Q) (now : Z) (d : Draws) (s : State) (rho : Q) :
  0.1 <= rho -> validDraws d -> liveBreaches now (breaches s) = [] ->
  inBand rho s -> inBand rho (tick exp now d s).
Proof.
  intros Hr (Hu & _) Hl Hb i Hi.
  destruct (tick_frame exp now d s) as (El & _).
  rewrite El in Hi. destruct (Hu i) as [U0 U1].
  pose proof (sensor_contracts exp now d s i Hi U0 U1 Hl) as R.
  specialize (Hb i Hi). lra.
Qed.

(** X13: An engine that nobody touches never raises an alert while it is within
    its band: started with no breach and every sensor within [rho] of its
    baseline, for a [rho] between the noise (0.1) and the alert threshold
    (4.5), any run of ticks and detections leaves the log and its counter
    unchanged, keeps every sensor within [rho], and creates no breach. *)
Theorem unattended_engine_stays_silent (exp : Q -> Q) (rho : Q) (s0 s : State) :
  0.1 <= rho -> rho <= 4.5 ->
  breaches s0 = [] -> inBand rho s0 ->
  unattended exp s0 s ->
  alerts s = alerts s0 /\ alertIdRef s = alertIdRef s0
  /\ breaches s = [] /\ inBand rho s.
Proof.
  intros Hlo Hhi Hb0 Hin0 R.
  induction R as [| now d s _ IH Hd | now s _ IH]; [repeat split; assumption | |];
    destruct IH as (Ia & Ii & Ib & Iband).
  - split; [exact Ia |]. split; [exact Ii |].
    assert (Hl : liveBreaches now (breaches s) = []) by (now rewrite Ib).
    split; [rewrite breaches_tick; exact Hl |].
    now apply inBand_tick.
  - assert (E : detect now s = s).
    { apply detect_fixpoint_iff. intros j Hj.
      specialize (Iband j Hj). apply Qabs_Qle_condition in Iband. lra. }
    rewrite E. repeat split; assumption.
Qed.

Lemma halfDraws_valid : validDraws halfDraws.
Proof.
  repeat split; try (vm_compute; discriminate); vm_compute; reflexivity.
Qed.

Lemma quiet_inBand : inBand 0.1 quiet.
Proof.
  intros i Hi. change (length (temps quiet)) with N_SENSORS in Hi.
  assert (E : nth i (temps quiet) 0 = T_BASE /\ idx (baselineRef quiet) i = T_BASE).
  { unfold idx. cbn [temps baselineRef quiet initState flat].
    split; apply nth_repeat_lt; exact Hi. }
  destruct E as [-> ->]. vm_compute. discriminate.
Qed.

Lemma unattended_engine_stays_silent_witness :
  0.1 <= 0.1 /\ 0.1 <= 4.5 /\ breaches quiet = [] /\ inBand 0.1 quiet
  /\ unattended expSeries quiet
                (detect 1000 (tick expSeries 1000 halfDraws
                                   (detect 500 (tick expSeries 500 halfDraws quiet))))
  /\ alerts (detect 1000 (tick expSeries 1000 halfDraws
                               (detect 500 (tick expSeries 500 halfDraws quiet))))
     = alerts quiet.
Proof.
  assert (H1 : 0.1 <= 0.1) by (vm_compute; discriminate).
  assert (H2 : 0.1 <= 4.5) by (vm_compute; discriminate).
  assert (R : unattended expSeries quiet
                (detect 1000 (tick expSeries 1000 halfDraws
                                   (detect 500 (tick expSeries 500 halfDraws quiet))))).
  { apply un_detect, un_tick; [| exact halfDraws_valid].
    apply un_detect, un_tick; [apply un_init | exact halfDraws_valid]. }
  split; [exact H1 |]. split; [exact H2 |]. split; [reflexivity |].
  split; [exact quiet_inBand |]. split; [exact R |].
  exact (proj1 (unattended_engine_stays_silent expSeries 0.1 quiet _ H1 H2 eq_refl
                                               quiet_inBand R)).
Defined.

(** ** Locations *)

Lemma jsRound_Z (z : Z) : jsRound (inject_Z z) = z.
Proof.
  unfold jsRound.
  pose proof (Qfloor_le (inject_Z z + 1 / 2)) as L.
  pose proof (Qlt_floor (inject_Z z + 1 / 2)) as U.
  set (f := Qfloor (inject_Z z + 1 / 2)) in *.
  rewrite inject_Z_plus in U. change (inject_Z 1) with 1 in U.
  assert (Hh : 0 < 1 / 2 /\ 1 / 2 < 1) by (split; reflexivity).
  assert (Hf : inject_Z f < inject_Z (z + 1)).
  { rewrite inject_Z_plus. change (inject_Z 1) with 1.
    set (a := inject_Z f) in *. set (b := inject_Z z) in *.
    set (h := 1 / 2) in *. lra. }
  assert (Hz : inject_Z z < inject_Z (f + 1)).
  { rewrite inject_Z_plus. change (inject_Z 1) with 1.
    set (a := inject_Z f) in *. set (b := inject_Z z) in *.
    set (h := 1 / 2) in *. lra. }
  rewrite <- Zlt_Qlt in Hf, Hz. lia.
Qed.

Lemma rack_index (i : Z) :
  Qfloor (inject_Z i / num N_SENSORS * num N_RACKS) = (i / 15)%Z.
Proof.
  rewrite (Zdiv_Qdiv i 15). apply Qfloor_comp.
  unfold num, N_SENSORS, N_RACKS. cbn [Z.of_nat Pos.of_succ_nat Pos.succ]. field.
Qed.

Lemma physLoc_sensor_facts (i : Z) :
  (0 <= i < 120)%Z ->
  physLoc (inject_Z i)
  = {| rack := (i / 15 + 1)%Z; feet := (i / 3)%Z; inches := (4 * (i mod 3))%Z |}
  /\ (1 <= rack (physLoc (inject_Z i)) <= 8)%Z
  /\ (12 * feet (physLoc (inject_Z i)) + inches (physLoc (inject_Z i)) = 4 * i)%Z.
Proof.
  intro Hi.
  assert (Einch : Qfloor (inject_Z i / num N_SENSORS * 480 + 1 / 2) = (4 * i)%Z).
  { rewrite <- (jsRound_Z (4 * i)). unfold jsRound. apply Qfloor_comp.
    rewrite inject_Z_mult.
    unfold num, N_SENSORS. cbn [Z.of_nat Pos.of_succ_nat Pos.succ]. field. }
  assert (E : physLoc (inject_Z i)
              = {| rack := (i / 15 + 1)%Z; feet := (i / 3)%Z;
                   inches := (4 * (i mod 3))%Z |}).
  { unfold physLoc. rewrite rack_index, Einch. f_equal.
    - replace (4 * i)%Z with (i * 4)%Z by lia.
      change 12%Z with (3 * 4)%Z. rewrite Z.div_mul_cancel_r by lia. reflexivity.
    - rewrite Z.rem_mod_nonneg by lia.
      change 12%Z with (4 * 3)%Z. rewrite Zmult_mod_distr_l. reflexivity. }
  split; [exact E |]. rewrite E. cbn [rack feet inches].
  pose proof (Z.div_mod i 3). pose proof (Z.mod_pos_bound i 3).
  split; [| lia].
  assert (0 <= i / 15 < 8)%Z
    by (split; [apply Z.div_pos; lia | apply Z.div_lt_upper_bound; lia]).
  lia.
Qed.

(** X14: [physLoc] of a sensor index: the rack is [i / 15 + 1], one of R1 to R8,
    the distance is 4 inches per sensor, printed as [i / 3] feet and
    [4 * (i mod 3)] inches, so the inches are 0, 4 or 8. *)
Theorem physLoc_of_sensor (i : Z) :
  (0 <= i < 120)%Z ->
  physLoc (inject_Z i)
  = {| rack := (i / 15 + 1)%Z; feet := (i / 3)%Z; inches := (4 * (i mod 3))%Z |}
  /\ (1 <= rack (physLoc (inject_Z i)) <= 8)%Z
  /\ (12 * feet (physLoc (inject_Z i)) + inches (physLoc (inject_Z i)) = 4 * i)%Z.
Proof. intros; now apply physLoc_sensor_facts. Qed.

Lemma physLoc_of_sensor_witness :
  (0 <= 32 < 120)%Z
  /\ physLoc (inject_Z 32)
     = {| rack := (32 / 15 + 1)%Z; feet := (32 / 3)%Z; inches := (4 * (32 mod 3))%Z |}.
Proof.
  assert (H : (0 <= 32 < 120)%Z) by lia.
  split; [exact H |].
  exact (proj1 (physLoc_of_sensor 32 H)).
Defined.

Lemma zone_index (i : Z) :
  Qfloor (inject_Z i / (num N_SENSORS / 4)) = (i / 30)%Z.
Proof.
  rewrite (Zdiv_Qdiv i 30). apply Qfloor_comp.
  unfold num, N_SENSORS. cbn [Z.of_nat Pos.of_succ_nat Pos.succ]. field.
Qed.

Lemma zoneLabel_facts (i : Z) :
  ((0 <= i < 120)%Z <-> zoneLabel i <> None)
  /\ ((0 <= i < 120)%Z ->
      zoneLabel i
      = nth_error zoneLabels (Z.to_nat ((rack (physLoc (inject_Z i)) - 1) / 2))).
Proof.
  assert (Ez : zoneLabel i
               = if (i / 30 <? 0)%Z then None
                 else nth_error zoneLabels (Z.to_nat (i / 30)))
    by (unfold zoneLabel; now rewrite zone_index).
  split; [split |].
  - intros Hi. rewrite Ez.
    assert (0 <= i / 30 < 4)%Z
      by (split; [apply Z.div_pos; lia | apply Z.div_lt_upper_bound; lia]).
    destruct (i / 30 <? 0)%Z eqn:E; [apply Z.ltb_lt in E; lia |].
    apply nth_error_Some. cbn. lia.
  - intro Hn. rewrite Ez in Hn.
    destruct (i / 30 <? 0)%Z eqn:E; [now contradiction Hn |].
    apply Z.ltb_ge in E. apply nth_error_Some in Hn. cbn in Hn.
    assert (i / 30 < 4)%Z by lia.
    pose proof (Z.div_mod i 30). pose proof (Z.mod_pos_bound i 30). lia.
  - intro Hi. rewrite Ez.
    destruct (physLoc_sensor_facts i Hi) as (E & _). rewrite E. cbn [rack].
    replace (i / 15 + 1 - 1)%Z with (i / 15)%Z by lia.
    rewrite Z.div_div by lia. change (15 * 2)%Z with 30%Z.
    destruct (i / 30 <? 0)%Z eqn:E0; [| reflexivity].
    apply Z.ltb_lt in E0. assert (0 <= i / 30)%Z by (apply Z.div_pos; lia). lia.
Qed.

(** X15: [zoneLabel] names a zone exactly for the sensor indices 0 to 119, gives
    [undefined] for every other integer, and agrees with [physLoc]: each
    zone is two racks, zone number [(rack - 1) / 2]. *)
Theorem zoneLabel_defined (i : Z) :
  ((0 <= i < 120)%Z <-> zoneLabel i <> None)
  /\ ((0 <= i < 120)%Z ->
      zoneLabel i
      = nth_error zoneLabels (Z.to_nat ((rack (physLoc (inject_Z i)) - 1) / 2))).
Proof. apply zoneLabel_facts. Qed.



(** The same alert, computed: sensor 32 is in Zone B, rack R3, 10 feet 8
    inches from the north end. *)
Example auto_alert_at_32 :
  map (fun a => (where_ a, loc a)) (alerts (detect 1000 (setTemps (hotAt 32 25) quiet)))
  = [(Some "Zone B"%string, Some (mkPhysLoc 3 10 8))].
Proof. reflexivity. Qed.

(** ** The racks of the 3D view *)


(** X17: A breach lights the rack its alert names, and only that one: rack [i]
    of the 3D view is marked for a breach exactly when [physLoc] of the
    breach position says rack [i + 1]; a position inside [0, 120) marks one
    of the eight racks, a position outside marks none. *)
Theorem breach_lights_its_rack (b : Breach) :
  (forall i, breachOnRack i b = true <-> rack (physLoc (b_pos b)) = (Z.of_nat i + 1)%Z)
  /\ (forall i j, breachOnRack i b = true -> breachOnRack j b = true -> i = j)
  /\ (inRange (b_pos b) <-> exists i, (i < N_RACKS)%nat /\ breachOnRack i b = true).
Proof.
  split; [| split].
  - intro i. unfold breachOnRack, physLoc. cbn [rack]. rewrite Z.eqb_eq. lia.
  - intros i j Hi Hj. unfold breachOnRack in *. rewrite Z.eqb_eq in Hi, Hj. lia.
  - assert (E : b_pos b / num N_SENSORS * num N_RACKS == b_pos b / 15).
    { unfold num, N_SENSORS, N_RACKS. cbn [Z.of_nat Pos.of_succ_nat Pos.succ]. field. }
    unfold breachOnRack, inRange. split.
    + intros [L U].
      assert (U' : b_pos b < 120) by exact U.
      set (q := b_pos b / num N_SENSORS * num N_RACKS) in *.
      assert (Hq : 0 <= q /\ q < 8).
      { rewrite E. split; [apply Qle_shift_div_l; [reflexivity | lra] |].
        apply Qlt_shift_div_r; [reflexivity | lra]. }
      destruct Hq as [Q0 Q8].
      pose proof (Qfloor_resp_le 0 q Q0) as F0. change (Qfloor 0) with 0%Z in F0.
      pose proof (Qfloor_le q) as FL.
      assert (F8 : inject_Z (Qfloor q) < inject_Z 8) by (eapply Qle_lt_trans; eassumption).
      rewrite <- Zlt_Qlt in F8.
      exists (Z.to_nat (Qfloor q)). split; [unfold N_RACKS; lia |].
      apply Z.eqb_eq. lia.
    + intros (i & Hi & Hb). apply Z.eqb_eq in Hb.
      set (q := b_pos b / num N_SENSORS * num N_RACKS) in *.
      pose proof (Qfloor_le q) as FL. pose proof (Qlt_floor q) as FU.
      rewrite Hb in FL, FU.
      assert (I0 : inject_Z 0 <= inject_Z (Z.of_nat i)) by (rewrite <- Zle_Qle; lia).
      assert (I8 : inject_Z (Z.of_nat i + 1) <= inject_Z 8)
        by (rewrite <- Zle_Qle; unfold N_RACKS in Hi; lia).
      assert (Hq : 0 <= q /\ q < 8).
      { split; [eapply Qle_trans; [exact I0 | exact FL] |
                eapply Qlt_le_trans; [exact FU | exact I8]]. }
      destruct Hq as [Q0 Q8]. rewrite E in Q0, Q8.
      assert (P0 : 0 <= b_pos b).
      { destruct (Qlt_le_dec (b_pos b) 0) as [N | P]; [| exact P].
        assert (b_pos b / 15 < 0) by (apply Qlt_shift_div_r; [reflexivity | lra]).
        lra. }
      assert (P1 : b_pos b < 120).
      { destruct (Qlt_le_dec (b_pos b) 120) as [N | P]; [exact N |].
        assert (8 <= b_pos b / 15) by (apply Qle_shift_div_l; [reflexivity | lra]).
        lra. }
      split; [exact P0 | exact P1].
Qed.

(** Position 120, which [induce] accepts, lights no rack. *)
Example breach_at_120_lights_nothing :
  map (hasBreach (breaches (induce 0 0.5 0.5 0.5 120 "Zone X" quiet))) (seq 0 N_RACKS)
  = repeat false N_RACKS
  /\ map (hasBreach (breaches (induce 0 0.5 0.5 0.5 32 "Zone B" quiet))) (seq 0 N_RACKS)
     = [false; false; true; false; false; false; false; false].
Proof. split; reflexivity. Qed.

(** ** Acknowledging alerts *)









(** The banner walking down a log of three breach alerts. *)
Example banner_walks_down :
  option_map a_id (critAlert [] threeBreaches) = Some 3%Z
  /\ option_map a_id (critAlert (ackAlert 3 []) threeBreaches) = Some 2%Z
  /\ option_map a_id (critAlert (ackAlert 2 (ackAlert 3 [])) threeBreaches) = Some 1%Z
  /\ critAlert (ackAlert 1 (ackAlert 2 (ackAlert 3 []))) threeBreaches = None
  /\ ackAlert 3 (ackAlert 2 (ackAlert 3 [])) = [3; 2]%Z.
Proof. repeat split. Qed.

(** X19: [clearAll] acknowledges nothing: while the log has room (at most 29
    entries) the banner and the count of unacknowledged alerts are after
    [clearAll] what they were before, since the CLEAR alert it adds is
    neither critical nor counted. *)
Theorem clearAll_keeps_banner (now : Z) (acked : AckSet) (s : State) :
  (length (alerts s) <= 29)%nat ->
  critAlert acked (clearAll now s) = critAlert acked s
  /\ unackedCount acked (clearAll now s) = unackedCount acked s.
Proof.
  intro H. unfold critAlert, unackedCount.
  rewrite alerts_clearAll. unfold pushAlert. rewrite firstn_all2 by lia.
  cbn [find filter]. unfold isCritUnacked, isUnacked. cbn [lvl clearAlert].
  rewrite andb_false_r. split; reflexivity.
Qed.

Lemma clearAll_keeps_banner_witness :
  (length (alerts threeBreaches) <= 29)%nat
  /\ critAlert [] (clearAll 9 threeBreaches) = critAlert [] threeBreaches
  /\ unackedCount [] (clearAll 9 threeBreaches) = unackedCount [] threeBreaches.
Proof.
  assert (H : (length (alerts threeBreaches) <= 29)%nat) by (vm_compute; lia).
  split; [exact H |].
  exact (clearAll_keeps_banner 9 [] threeBreaches H).
Defined.

(** ** Status texts *)

(** X20: The header status and the gauge label read the same score with the
    thresholds on opposite sides: NOMINAL means [bari <= 0.3] and ALL CLEAR
    means [bari < 0.3], so ALL CLEAR implies NOMINAL and the two differ only
    at 0.3 exactly; BREACH DETECTED means [bari > 0.55] and then the label is
    HIGH RISK or CRITICAL. *)
Theorem status_and_label_agree (s : State) :
  (sysStatus s = "NOMINAL"%string <-> bari s <= 0.3)
  /\ (bariLabel s = "ALL CLEAR"%string <-> bari s < 0.3)
  /\ (sysStatus s = "BREACH DETECTED"%string <-> 0.55 < bari s)
  /\ (sysStatus s = "BREACH DETECTED"%string ->
      bariLabel s = "HIGH RISK"%string \/ bariLabel s = "CRITICAL"%string)
  /\ (bariLabel s = "CRITICAL"%string <-> 0.8 <= bari s).
Proof.
  unfold sysStatus, bariLabel.
  destruct (Qltb 0.55 (bari s)) eqn:E1; destruct (Qltb 0.3 (bari s)) eqn:E2;
    destruct (Qltb (bari s) 0.3) eqn:E3; destruct (Qltb (bari s) 0.55) eqn:E4;
    destruct (Qltb (bari s) 0.8) eqn:E5;
    repeat match goal with
           | H : Qltb _ _ = true |- _ => apply Qltb_lt in H
           | H : Qltb _ _ = false |- _ => apply Qltb_ge in H
           end;
    try lra;
    repeat split; intros; try discriminate; try lra; auto.
Qed.

(** ** Bypass power *)

Lemma bypass_fold (bs : list Breach) :
  forall acc, fold_left (fun acc b => acc + (b_int b / 14) * 18) bs acc
              == acc + fold_left (fun acc b => acc + (b_int b / 14) * 18) bs 0.
Proof.
  induction bs as [| b r IH]; intro acc; cbn [fold_left]; [ring |].
  rewrite IH, (IH (0 + b_int b / 14 * 18)). ring.
Qed.

(** X21: Each induced breach adds between 81/7 (about 11.6) and 18 kW of bypass
    power to the total, whatever the breaches already there, and [clearAll]
    brings the total, the hourly cost and the hourly CO2 back to zero. *)
Theorem bypass_power (now : Z) (r1 r2 r3 pos : Q) (label : string) (s : State) :
  0 <= r2 -> r2 < 1 ->
  bypassKW (induce now r1 r2 r3 pos label s) == bypassKW s + (9 + r2 * 5) / 14 * 18
  /\ bypassKW s + (81 # 7) <= bypassKW (induce now r1 r2 r3 pos label s)
  /\ bypassKW (induce now r1 r2 r3 pos label s) < bypassKW s + 18
  /\ bypassKW (clearAll now (induce now r1 r2 r3 pos label s)) == 0
  /\ costPerHr (clearAll now (induce now r1 r2 r3 pos label s)) == 0
  /\ co2PerHr (clearAll now (induce now r1 r2 r3 pos label s)) == 0.
Proof.
  intros H0 H1.
  assert (E : bypassKW (induce now r1 r2 r3 pos label s)
              == bypassKW s + (9 + r2 * 5) / 14 * 18).
  { unfold bypassKW. rewrite breaches_induce, fold_left_app. cbn [fold_left].
    cbn [b_int newBreach]. reflexivity. }
  split; [exact E |].
  assert (B : (81 # 7) <= (9 + r2 * 5) / 14 * 18 /\ (9 + r2 * 5) / 14 * 18 < 18).
  { assert (Ed : (9 + r2 * 5) / 14 * 18 == (9 + r2 * 5) * (9 # 7)) by field.
    rewrite Ed. split; lra. }
  destruct B as [B1 B2].
  split; [rewrite E; lra |]. split; [rewrite E; lra |].
  repeat split; reflexivity.
Qed.

Lemma bypass_power_witness :
  0 <= 0.5 /\ 0.5 < 1
  /\ bypassKW (induce 0 0.5 0.5 0.5 32 "Zone B" quiet)
     == bypassKW quiet + (9 + 0.5 * 5) / 14 * 18.
Proof.
  assert (H0 : 0 <= 0.5) by (vm_compute; discriminate).
  assert (H1 : 0.5 < 1) by (vm_compute; reflexivity).
  split; [exact H0 |]. split; [exact H1 |].
  exact (proj1 (bypass_power 0 0.5 0.5 0.5 32 "Zone B" quiet H0 H1)).
Defined.

(** ** The gauge *)

Lemma jsRound_mono (x y : Q) : x <= y -> (jsRound x <= jsRound y)%Z.
Proof.
  intro H. unfold jsRound. apply Qfloor_resp_le. lra.
Qed.

(** X22: The number the gauge prints is an integer from 0 to 100 in every
    state. *)
Theorem bariPct_range (s : State) : (0 <= bariPct s <= 100)%Z.
Proof.
  destruct (bari_range s) as [L U]. unfold bariPct. split.
  - assert (H : inject_Z 0 <= bari s * 100) by (change (inject_Z 0) with 0; lra).
    apply jsRound_mono in H. now rewrite jsRound_Z in H.
  - assert (H : bari s * 100 <= inject_Z 100) by (change (inject_Z 100) with 100; lra).
    apply jsRound_mono in H. now rewrite jsRound_Z in H.
Qed.

(** ** The countdown *)



(** ** The thermal colour scale *)

Lemma mixChannel_range (f : Q) (a b : Z) :
  0 <= f -> f <= 1 ->
  (Z.min a b <= mixChannel f a b <= Z.max a b)%Z.
Proof.
  intros F0 F1. unfold mixChannel.
  set (qa := inject_Z a). set (qb := inject_Z b).
  destruct (Z.le_ge_cases a b) as [Hab | Hba].
  - assert (Q : qa <= qb) by (unfold qa, qb; now rewrite <- Zle_Qle).
    assert (P0 : 0 <= f * (qb - qa)) by (apply Qmult_le_0_compat; lra).
    assert (P1 : f * (qb - qa) <= 1 * (qb - qa)) by (apply Qmult_le_compat_r; lra).
    assert (L : inject_Z a <= qa + f * (qb - qa)) by (fold qa; lra).
    assert (U : qa + f * (qb - qa) <= inject_Z b) by (fold qb; lra).
    apply jsRound_mono in L, U. rewrite jsRound_Z in L, U. lia.
  - assert (Q : qb <= qa) by (unfold qa, qb; now rewrite <- Zle_Qle).
    assert (P0 : 0 <= f * (qa - qb)) by (apply Qmult_le_0_compat; lra).
    assert (P1 : f * (qa - qb) <= 1 * (qa - qb)) by (apply Qmult_le_compat_r; lra).
    assert (E : f * (qb - qa) == - (f * (qa - qb))) by ring.
    assert (L : inject_Z b <= qa + f * (qb - qa)) by (fold qb; lra).
    assert (U : qa + f * (qb - qa) <= inject_Z a) by (fold qa; lra).
    apply jsRound_mono in L, U. rewrite jsRound_Z in L, U. lia.
Qed.

Lemma segment_true (a b v : Q) :
  Qle_bool a v && Qle_bool v b = true -> a <= v /\ v <= b.
Proof.
  intro H. apply andb_true_iff in H. destruct H as [H1 H2].
  split; now apply Qle_bool_iff.
Qed.

Lemma segment_false (a b v : Q) :
  Qle_bool a v && Qle_bool v b = false -> v < a \/ b < v.
Proof.
  intro H. apply andb_false_iff in H. destruct H as [H | H]; [left | right];
    apply Qnot_le_lt; intro L; apply Qle_bool_iff in L; congruence.
Qed.

Lemma fraction_range (a b v : Q) :
  a < b -> a <= v -> v <= b -> 0 <= (v - a) / (b - a) /\ (v - a) / (b - a) <= 1.
Proof.
  intros Hab L U. split.
  - apply Qle_shift_div_l; lra.
  - apply Qle_shift_div_r; lra.
Qed.

Lemma colorLoop_total (v : Q) :
  0 <= v -> v <= 1 -> exists c, colorLoop v STOPS = Some c /\ channelsValid c.
Proof.
  intros V0 V1. unfold STOPS. cbn [colorLoop].
  repeat match goal with
         | |- context [if ?c then _ else _] =>
             let E := fresh "E" in
             destruct c eqn:E;
             [ apply segment_true in E; destruct E as [? ?];
               eexists; split; [reflexivity |];
               unfold channelsValid; cbn [red green blue];
               repeat split;
               match goal with
               | |- (_ <= mixChannel ?f ?a ?b)%Z =>
                   let R := fresh in
                   assert (R : 0 <= f /\ f <= 1)
                     by (apply fraction_range; [reflexivity | assumption | assumption]);
                   let R0 := fresh in let R1 := fresh in
                   destruct R as [R0 R1]; pose proof (mixChannel_range f a b R0 R1); lia
               | |- (mixChannel ?f ?a ?b <= _)%Z =>
                   let R := fresh in
                   assert (R : 0 <= f /\ f <= 1)
                     by (apply fraction_range; [reflexivity | assumption | assumption]);
                   let R0 := fresh in let R1 := fresh in
                   destruct R as [R0 R1]; pose proof (mixChannel_range f a b R0 R1); lia
               end
             | apply segment_false in E ]
         end.
  exfalso. lra.
Qed.

Lemma Qmax0_nonpos (x : Q) : x <= 0 -> Qmax 0 x = 0.
Proof.
  intro H. unfold Qmax, GenericMinMax.gmax.
  destruct (0 ?= x) eqn:E; try reflexivity.
  apply Qlt_alt in E. lra.
Qed.

Lemma Qmin1_small (x : Q) : x < 1 -> Qmin 1 x = x.
Proof.
  intro H. unfold Qmin, GenericMinMax.gmin.
  destruct (1 ?= x) eqn:E; try reflexivity.
  - apply Qeq_alt in E. lra.
  - apply Qlt_alt in E. lra.
Qed.

Lemma Qmin1_big (x : Q) : 1 <= x -> Qmin 1 x = 1.
Proof.
  intro H. unfold Qmin, GenericMinMax.gmin.
  destruct (1 ?= x) eqn:E; try reflexivity.
  apply Qgt_alt in E. lra.
Qed.

(** X24: [tempToColor] on a proper scale ([lo < hi]) always takes its colour
    from a segment of the table, so the [return] after the loop is never
    reached; every channel is a valid colour value between 0 and 255; and
    the scale saturates: the first stop (20, 90, 220) at and below [lo], the
    last stop (220, 25, 25) at and above [hi]. *)
Theorem tempToColor_valid (t lo hi : Q) :
  lo < hi ->
  colorLoop (Qmax 0 (Qmin 1 ((t - lo) / (hi - lo)))) STOPS = Some (tempToColor t lo hi)
  /\ channelsValid (tempToColor t lo hi)
  /\ (t <= lo -> tempToColor t lo hi = mkRGB 20 90 220)
  /\ (hi <= t -> tempToColor t lo hi = mkRGB 220 25 25).
Proof.
  intro Hlh. unfold tempToColor.
  set (y := (t - lo) / (hi - lo)).
  assert (V : 0 <= Qmax 0 (Qmin 1 y) /\ Qmax 0 (Qmin 1 y) <= 1).
  { split; [apply Q.le_max_l |]. apply Q.max_lub; [discriminate | apply Q.le_min_l]. }
  destruct V as [V0 V1].
  destruct (colorLoop_total _ V0 V1) as (c & Ec & Hc).
  rewrite Ec. split; [reflexivity |]. split; [exact Hc |].
  split; intro Ht.
  - assert (Hy : y <= 0).
    { unfold y. apply Qle_shift_div_r; lra. }
    assert (Ev : Qmax 0 (Qmin 1 y) = 0).
    { rewrite Qmin1_small by lra. now apply Qmax0_nonpos. }
    rewrite Ev in Ec. vm_compute in Ec. now injection Ec as <-.
  - assert (Hy : 1 <= y).
    { unfold y. apply Qle_shift_div_l; lra. }
    assert (Ev : Qmax 0 (Qmin 1 y) = 1).
    { rewrite Qmin1_big by exact Hy. reflexivity. }
    rewrite Ev in Ec. vm_compute in Ec. now injection Ec as <-.
Qed.

Lemma tempToColor_valid_witness :
  14 < 40
  /\ channelsValid (tempToColor 25 14 40)
  /\ tempToColor 25 14 40 = mkRGB 18 207 123.
Proof.
  assert (H : 14 < 40) by reflexivity.
  split; [exact H |].
  split; [exact (proj1 (proj2 (tempToColor_valid 25 14 40 H))) | reflexivity].
Defined.

(** ** Excursions spaced apart *)

(** X25: Two evaluations with [maxDelta] above 4.5 that are at least 9 s apart
    each raise an alert when the first one is not suppressed: the log gains
    two auto-alerts, stamped with the two times and with consecutive ids,
    the later one at the head. *)
Theorem excursions_spaced_apart
        (s : State) (now1 now2 : Z) (temps2 : list Q) (m1 m2 : Q) :
  maxSpread (deltas s) = Some m1 -> 4.5 < m1 ->
  ~ RecentAlert now1 (alerts s) ->
  (now1 + 9000 <= now2)%Z ->
  maxSpread (deltas (secondEvaluation now1 temps2 s)) = Some m2 -> 4.5 < m2 ->
  exists a1 a2,
    alerts (detect now2 (secondEvaluation now1 temps2 s))
    = a2 :: firstn 29 (a1 :: firstn 29 (alerts s))
    /\ ts a1 = now1 /\ ts a2 = now2
    /\ isAuto a1 = true /\ isAuto a2 = true
    /\ a_id a1 = (alertIdRef s + 1)%Z /\ a_id a2 = (alertIdRef s + 2)%Z.
Proof.
  intros Hm1 Hlt1 Hr Hgap Hm2 Hlt2.
  pose proof (alerts_detect_excursion now1 s m1 Hm1 Hlt1) as E1.
  apply recentHead_false in Hr. unfold detectUpdater in E1. rewrite Hr in E1.
  pose proof (alerts_detect_excursion now2 _ m2 Hm2 Hlt2) as E2.
  assert (Eid : alertIdRef (secondEvaluation now1 temps2 s) = (alertIdRef s + 1)%Z).
  { unfold secondEvaluation, detect. rewrite Hm1.
    apply Qltb_lt in Hlt1. now rewrite Hlt1. }
  assert (Eal : alerts (secondEvaluation now1 temps2 s) = alerts (detect now1 s))
    by reflexivity.
  rewrite Eal, E1, Eid in E2. unfold detectUpdater, pushAlert in E2.
  cbn [recentHead ts autoAlert] in E2.
  assert (Hn : (now2 - now1 <? 9000)%Z = false) by (apply Z.ltb_ge; lia).
  rewrite Hn in E2.
  eexists _, _. split; [exact E2 |].
  cbn [ts a_id autoAlert]. unfold isAuto. cbn [lvl autoAlert].
  repeat split; try lia;
    match goal with |- context [Qltb 7 ?m] => destruct (Qltb 7 m); reflexivity end.
Qed.

Lemma excursions_spaced_apart_witness :
  maxSpread (deltas (setTemps (hotAt 32 25) quiet)) = Some (58 # 10)
  /\ 4.5 < 58 # 10
  /\ ~ RecentAlert 1000 (alerts (setTemps (hotAt 32 25) quiet))
  /\ (1000 + 9000 <= 10000)%Z
  /\ maxSpread (deltas (secondEvaluation 1000 (hotAt 32 27) (setTemps (hotAt 32 25) quiet)))
     = Some (78 # 10)
  /\ exists a1 a2,
      alerts (detect 10000 (secondEvaluation 1000 (hotAt 32 27)
                                             (setTemps (hotAt 32 25) quiet)))
      = a2 :: firstn 29 (a1 :: firstn 29 (alerts (setTemps (hotAt 32 25) quiet)))
      /\ ts a1 = 1000%Z /\ ts a2 = 10000%Z
      /\ isAuto a1 = true /\ isAuto a2 = true
      /\ a_id a1 = (alertIdRef (setTemps (hotAt 32 25) quiet) + 1)%Z
      /\ a_id a2 = (alertIdRef (setTemps (hotAt 32 25) quiet) + 2)%Z.
Proof.
  assert (Hr : ~ RecentAlert 1000 (alerts (setTemps (hotAt 32 25) quiet)))
    by (intros (p & r & E & _); discriminate).
  assert (Hg : (1000 + 9000 <= 10000)%Z) by lia.
  split; [vm_compute; reflexivity |]. split; [vm_compute; reflexivity |].
  split; [exact Hr |]. split; [exact Hg |]. split; [vm_compute; reflexivity |].
  exact (excursions_spaced_apart (setTemps (hotAt 32 25) quiet) 1000 10000 (hotAt 32 27)
                                 (58 # 10) (78 # 10) eq_refl eq_refl Hr Hg eq_refl eq_refl).
Defined.

(** ** Rack zones *)

Lemma rackStart_15 (i : nat) : rackStart i = (15 * i)%nat.
Proof.
  unfold rackStart.
  assert (E : num i * num N_SENSORS / num N_RACKS == inject_Z (15 * Z.of_nat i)).
  { rewrite inject_Z_mult. unfold num, N_SENSORS, N_RACKS.
    cbn [Z.of_nat Pos.of_succ_nat Pos.succ].
    change (inject_Z 15) with 15. change (inject_Z 120) with 120.
    change (inject_Z 8) with 8. field. }
  rewrite (Qfloor_comp _ _ E), Qfloor_Z. lia.
Qed.

Lemma chunks_concat {A : Type} (l : list A) (n : nat) :
  forall a, length l = (15 * (a + n))%nat ->
            concat (map (fun i => firstn 15 (skipn (15 * i) l)) (seq a n))
            = skipn (15 * a) l.
Proof.
  induction n as [| n IH]; intros a Hl; cbn [seq map concat].
  - rewrite skipn_all2; [reflexivity | lia].
  - rewrite (IH (S a)) by lia.
    replace (15 * S a)%nat with (15 + 15 * a)%nat by lia.
    rewrite <- skipn_skipn. apply firstn_skipn.
Qed.

Lemma sum_fold (l : list Q) :
  forall acc, fold_left (fun a b => a + b) l acc == acc + Qsum l.
Proof.
  induction l as [| x r IH]; intro acc; cbn [fold_left].
  - unfold Qsum. cbn [fold_right]. ring.
  - rewrite IH. change (Qsum (x :: r)) with (x + Qsum r). ring.
Qed.

Lemma Qsum_concat (ls : list (list Q)) :
  Qsum (concat ls) == Qsum (map Qsum ls).
Proof.
  induction ls as [| l r IH]; [reflexivity |].
  cbn [concat map]. rewrite Qsum_app, IH. reflexivity.
Qed.

Lemma rackSlice_chunk (s : State) (i : nat) :
  rackSlice s i = firstn 15 (skipn (15 * i) (temps s)).
Proof.
  unfold rackSlice, slice. rewrite !rackStart_15. f_equal. lia.
Qed.

(** X26: On an array of [N_SENSORS] readings the eight racks split the sensors
    between them: every rack averages 15 readings, the slices laid end to
    end are the whole array, and so the eight averages weigh every sensor
    once: 15 times their sum is the sum of all readings. *)
Theorem racks_partition_sensors (s : State) :
  length (temps s) = N_SENSORS ->
  concat (map (rackSlice s) (seq 0 N_RACKS)) = temps s
  /\ Forall (fun i => length (rackSlice s i) = 15%nat) (seq 0 N_RACKS)
  /\ 15 * Qsum (map avg (rackZones s)) == Qsum (temps s).
Proof.
  intro Hl.
  assert (Ec : concat (map (rackSlice s) (seq 0 N_RACKS)) = temps s).
  { rewrite (map_ext _ _ (rackSlice_chunk s)).
    apply (chunks_concat (temps s) N_RACKS 0). rewrite Hl. reflexivity. }
  assert (El : Forall (fun i => length (rackSlice s i) = 15%nat) (seq 0 N_RACKS)).
  { apply Forall_forall. intros i Hi. apply in_seq in Hi.
    rewrite rackSlice_chunk, length_firstn, length_skipn, Hl.
    unfold N_SENSORS, N_RACKS in *. lia. }
  split; [exact Ec |]. split; [exact El |].
  rewrite <- Ec at 1. rewrite Qsum_concat, map_map.
  unfold rackZones. rewrite map_map. clear Ec.
  induction El as [| i r Hi _ IH]; [reflexivity |].
  cbn [map Qsum fold_right].
  change (fold_right Qplus 0 (map (fun x => avg (rackZone s x)) r))
    with (Qsum (map (fun x => avg (rackZone s x)) r)).
  change (fold_right Qplus 0 (map (fun x => Qsum (rackSlice s x)) r))
    with (Qsum (map (fun x => Qsum (rackSlice s x)) r)).
  rewrite <- IH.
  assert (Ea : avg (rackZone s i) == Qsum (rackSlice s i) / 15).
  { cbn [avg rackZone]. fold (rackSlice s i). rewrite Hi, sum_fold.
    change (num 15) with 15. field. }
  rewrite Ea. field.
Qed.

Lemma racks_partition_sensors_witness :
  length (temps afterInduce) = N_SENSORS
  /\ concat (map (rackSlice afterInduce) (seq 0 N_RACKS)) = temps afterInduce.
Proof.
  assert (H : length (temps afterInduce) = N_SENSORS) by reflexivity.
  split; [exact H |].
  exact (proj1 (racks_partition_sensors afterInduce H)).
Defined.

Lemma avg_le_maxRackTemp (s : State) (z : RackZone) :
  In z (rackZones s) -> avg z <= maxRackTemp s.
Proof.
  intro Hin. unfold maxRackTemp.
  assert (Hm : In (avg z) (map avg (rackZones s))) by (now apply in_map).
  destruct (maxSpread (map avg (rackZones s))) as [m |] eqn:E.
  - apply maxSpread_ub in E. rewrite Forall_forall in E. now apply E.
  - destruct (map avg (rackZones s)); [destruct Hm | discriminate].
Qed.

Lemma ashrae_A1 (temp : Q) : cls (ashraeClass temp) = "A1"%string <-> temp <= 27.
Proof.
  unfold ashraeClass.
  destruct (Qle_bool temp 27) eqn:E1; [apply Qle_bool_iff in E1; now split |].
  assert (N : ~ temp <= 27) by (intro L; apply Qle_bool_iff in L; congruence).
  destruct (Qle_bool temp 35); [split; [discriminate | contradiction] |].
  destruct (Qle_bool temp 40); split; try discriminate; contradiction.
Qed.

(** X27: While the trend is positive, the countdown to the A1 limit reads
    exactly zero as soon as one rack zone has left class A1 (its average is
    above 27), and it is positive, [(27 - maxRackTemp) / trend], while every
    rack average is below 27. *)
Theorem countdown_tracks_racks (s : State) :
  0 < trend s ->
  (Exists (fun z => cls (z_class z) <> "A1"%string) (rackZones s) ->
   timeToLimit s = Some 0 /\ fmtCountdown 0 = (0, 0)%Z)
  /\ (Forall (fun z => avg z < A1_LIMIT) (rackZones s) ->
      exists v, timeToLimit s = Some v /\ 0 < v
                /\ v == (A1_LIMIT - maxRackTemp s) / trend s).
Proof.
  intro Ht.
  assert (Et : timeToLimit s = Some (Qmax 0 ((A1_LIMIT - maxRackTemp s) / trend s))).
  { unfold timeToLimit. apply Qltb_lt in Ht. now rewrite Ht. }
  split.
  - intro Hex. apply Exists_exists in Hex. destruct Hex as (z & Hin & Hc).
    split; [| reflexivity]. rewrite Et. f_equal. apply Qmax0_nonpos.
    assert (Hz : 27 < avg z).
    { apply Qnot_le_lt. intro L. apply Hc.
      assert (Ez : z_class z = ashraeClass (avg z)).
      { unfold rackZones in Hin. apply in_map_iff in Hin.
        destruct Hin as (i & <- & _). reflexivity. }
      rewrite Ez. now apply ashrae_A1. }
    pose proof (avg_le_maxRackTemp s z Hin) as Hm.
    apply Qle_shift_div_r; [exact Ht |]. unfold A1_LIMIT. lra.
  - intro Hall. eexists. split; [exact Et |].
    assert (Hmax : maxRackTemp s < A1_LIMIT).
    { unfold maxRackTemp.
      destruct (maxSpread (map avg (rackZones s))) as [m |] eqn:E; [| reflexivity].
      apply maxSpread_In, in_map_iff in E. destruct E as (z & <- & Hin).
      rewrite Forall_forall in Hall. now apply Hall. }
    assert (Hpos : 0 < (A1_LIMIT - maxRackTemp s) / trend s)
      by (apply Qlt_shift_div_l; [exact Ht | lra]).
    split.
    + apply Qlt_le_trans with ((A1_LIMIT - maxRackTemp s) / trend s);
        [exact Hpos | apply Q.le_max_r].
    + apply Q.max_r. lra.
Qed.

Lemma countdown_tracks_racks_witness :
  0 < trend (tick expSeries 500 halfDraws threeBreaches)
  /\ (Forall (fun z => avg z < A1_LIMIT) (rackZones (tick expSeries 500 halfDraws threeBreaches)) ->
      exists v, timeToLimit (tick expSeries 500 halfDraws threeBreaches) = Some v /\ 0 < v
                /\ v == (A1_LIMIT - maxRackTemp (tick expSeries 500 halfDraws threeBreaches))
                        / trend (tick expSeries 500 halfDraws threeBreaches)).
Proof.
  assert (H : 0 < trend (tick expSeries 500 halfDraws threeBreaches))
    by (vm_compute; reflexivity).
  split; [exact H |].
  exact (proj2 (countdown_tracks_racks (tick expSeries 500 halfDraws threeBreaches) H)).
Defined.

(** ** The footprint of an induced breach *)

(** X28: A breach made by [induce] is at most 7 sensors wide, so it never
    reaches a sensor 14 or more positions away from it: the next tick gives
    such a sensor exactly the reading it would have had without the call. *)
Theorem induced_breach_footprint
        (exp : Q -> Q) (t now : Z) (d : Draws) (r1 r2 r3 pos : Q) (label : string)
        (s : State) (i : nat) :
  0 <= r1 -> r1 < 1 ->
  (i < length (temps s))%nat ->
  14 <= Qabs (num i - pos) ->
  nth i (temps (tick exp now d (induce t r1 r2 r3 pos label s))) 0
  = nth i (temps (tick exp now d s)) 0.
Proof.
  intros H0 H1 Hi Hfar.
  rewrite (nth_temps_tick exp now d s i Hi).
  rewrite (nth_temps_tick exp now d (induce t r1 r2 r3 pos label s) i Hi).
  rewrite breaches_induce.
  change (baselineRef (induce t r1 r2 r3 pos label s)) with (baselineRef s).
  change (temps (induce t r1 r2 r3 pos label s)) with (temps s).
  unfold liveBreaches. rewrite filter_app. cbn [filter].
  unfold tickTemp. f_equal. f_equal.
  destruct (isLive now (newBreach (breachIdRef s + 1) t pos label r1 r2 r3));
    [| now rewrite app_nil_r].
  rewrite fold_left_app. cbn [fold_left].
  unfold tempLoopBody at 1. cbn [b_pos b_w newBreach].
  assert (E : Qltb (Qabs (num i - pos)) ((4 + r1 * 3) * 2) = false)
    by (apply Qltb_ge; lra).
  now rewrite E.
Qed.

Lemma induced_breach_footprint_witness :
  0 <= 0.5 /\ 0.5 < 1
  /\ (60 < length (temps quiet))%nat
  /\ 14 <= Qabs (num 60 - 32)
  /\ nth 60 (temps (tick expSeries 500 halfDraws (induce 0 0.5 0.5 0.5 32 "Zone B" quiet))) 0
     = nth 60 (temps (tick expSeries 500 halfDraws quiet)) 0.
Proof.
  assert (H0 : 0 <= 0.5) by (vm_compute; discriminate).
  assert (H1 : 0.5 < 1) by (vm_compute; reflexivity).
  assert (Hi : (60 < length (temps quiet))%nat) by (vm_compute; lia).
  assert (Hf : 14 <= Qabs (num 60 - 32)) by (vm_compute; discriminate).
  split; [exact H0 |]. split; [exact H1 |]. split; [exact Hi |]. split; [exact Hf |].
  exact (induced_breach_footprint expSeries 0 500 halfDraws 0.5 0.5 0.5 32 "Zone B"
                                  quiet 60 H0 H1 Hi Hf).
Defined.
